(** * TaskFlow backend: authentication and session state machine

    A shallow embedding of the TaskFlow authentication backend
    ([utils/jwt.ts], [middleware/auth.ts], [controllers/authController.ts],
    [types/user.types.ts]) together with the properties its design document
    states about it.

    Conventions of the embedding:
    - a point in time ([Date], [Date.now()]) is a [Z], in milliseconds;
    - a JavaScript string is a [string] holding its UTF-8 bytes; its
      [length], which counts UTF-16 code units, is [Js.length];
      [undefined] and [null] are [None];
    - the user collection is a list of documents in natural order, which is
      the order [findOne] scans it in;
    - a controller is a function from the store and the request to the new
      store and the response written to [res]; a middleware either writes a
      response or calls [next()];
    - the values that come from outside the process ([crypto.randomBytes],
      [crypto.randomUUID], the outcome of the mail transport) are explicit
      arguments;
    - the digest, the password comparison and the token codec are the
      parameters of the sections that use them. *)

From Stdlib Require Import ZArith String Ascii List Bool Lia Sorted.
From stdpp Require Import base option list gmap strings.

Local Open Scope Z_scope.
Local Open Scope string_scope.

(** ** JavaScript helpers *)

Module Js.

(** [!s] for a string that may be [undefined]: the empty string is falsy. *)
Definition falsy (o : option string) : bool :=
  match o with
  | None => true
  | Some s => bool_decide (s = "")
  end.

(** [a || b] on strings. *)
Definition or_else (o : option string) (d : string) : string :=
  if falsy o then d else default d o.

(** [s.startsWith(p)]. *)
Definition startsWith (p s : string) : bool := String.prefix p s.

(** [s.substring(n)], for [n] a natural number. *)
Definition substring_from (n : nat) (s : string) : string :=
  String.substring n (String.length s - n) s.

(** The UTF-16 code units a byte of a UTF-8 string stands for: one for an
    ASCII byte and for the first byte of a two- or three-byte sequence,
    two (a surrogate pair) for the first byte of a four-byte sequence,
    none for a continuation byte. *)
Definition utf16_units (c : ascii) : nat :=
  let n := nat_of_ascii c in
  if Nat.ltb n 128 then 1%nat
  else if Nat.ltb n 192 then 0%nat
  else if Nat.ltb n 240 then 1%nat
  else 2%nat.

(** [s.length]: the number of UTF-16 code units of [s]. *)
Fixpoint length (s : string) : nat :=
  match s with
  | EmptyString => 0%nat
  | String c rest => (utf16_units c + length rest)%nat
  end.

(** [Number.MAX_SAFE_INTEGER], [2^53 - 1]: up to it the numbers of the
    program, which are IEEE doubles, are the integers they stand for, and
    their sums, differences and comparisons are exact. *)
Definition MAX_SAFE_INTEGER : Z := 2 ^ 53 - 1.

(** [Math.ceil(x / d)] for integers [x] and [d > 0]. *)
Definition ceil_div (x d : Z) : Z := - ((- x) / d).

End Js.

(** ** [types/user.types.ts] *)

Inductive Role := RoleUser | RoleAdmin.
Inductive Theme := ThemeLight | ThemeDark | ThemeSystem.

Record Notifications := {
  n_email : bool;
  n_push : bool;
  n_mentions : bool;
  n_assignments : bool
}.

Record Preferences := {
  notifications : Notifications;
  theme : Theme;
  language : string
}.

Record IUser := {
  _id : string;
  email : string;
  password : string;
  firstName : string;
  lastName : string;
  avatar : option string;
  isEmailVerified : bool;
  emailVerificationToken : option string;
  emailVerificationExpires : option Z;
  passwordResetToken : option string;
  passwordResetExpires : option Z;
  lastLogin : option Z;
  isActive : bool;
  role : Role;
  preferences : Preferences;
  createdAt : Z;
  updatedAt : Z
}.

(** A document read with [.select('-password')]: every field of [IUser]
    except the password. *)
Record IUserNoPassword := {
  np_id : string;
  np_email : string;
  np_firstName : string;
  np_lastName : string;
  np_avatar : option string;
  np_isEmailVerified : bool;
  np_emailVerificationToken : option string;
  np_emailVerificationExpires : option Z;
  np_passwordResetToken : option string;
  np_passwordResetExpires : option Z;
  np_lastLogin : option Z;
  np_isActive : bool;
  np_role : Role;
  np_preferences : Preferences;
  np_createdAt : Z;
  np_updatedAt : Z
}.

Definition select_minus_password (u : IUser) : IUserNoPassword :=
  {| np_id := _id u;
     np_email := email u;
     np_firstName := firstName u;
     np_lastName := lastName u;
     np_avatar := avatar u;
     np_isEmailVerified := isEmailVerified u;
     np_emailVerificationToken := emailVerificationToken u;
     np_emailVerificationExpires := emailVerificationExpires u;
     np_passwordResetToken := passwordResetToken u;
     np_passwordResetExpires := passwordResetExpires u;
     np_lastLogin := lastLogin u;
     np_isActive := isActive u;
     np_role := role u;
     np_preferences := preferences u;
     np_createdAt := createdAt u;
     np_updatedAt := updatedAt u |}.

Definition role_string (r : Role) : string :=
  match r with RoleUser => "user" | RoleAdmin => "admin" end.

(** ** The user collection *)

Module Store.

Definition t := list IUser.

(** [User.findOne(query)]: the first document the query matches. *)
Definition findOne (query : IUser -> bool) (st : t) : option IUser :=
  List.find query st.

(** [User.findById(id)]; [findById(undefined)] finds nothing. *)
Definition findById (id : option string) (st : t) : option IUser :=
  match id with
  | None => None
  | Some i => findOne (fun d => String.eqb (_id d) i) st
  end.

(** [user.save()] for a document read from the collection: the stored
    document with that [_id] is replaced. *)
Definition save (u : IUser) (st : t) : t :=
  List.map (fun d => if String.eqb (_id d) (_id u) then u else d) st.

End Store.

(** ** [utils/jwt.ts] *)

Module Jwt.

(** [process.env], as far as this module reads it. *)
Record Env := {
  env_JWT_SECRET : option string;
  env_JWT_REFRESH_SECRET : option string
}.

Definition JWT_SECRET (e : Env) : string :=
  Js.or_else (env_JWT_SECRET e)
    "your-super-secret-jwt-key-change-this-in-production".

Definition JWT_REFRESH_SECRET (e : Env) : string :=
  Js.or_else (env_JWT_REFRESH_SECRET e)
    "your-super-secret-refresh-key-change-this-in-production".

(** The claims of a token. [userId], [email] and [role] are the fields of
    [JwtPayload]; the registered claims are those [jwt.sign] adds. Times
    are in seconds, as in the token. *)
Record Claims := {
  userId : option string;
  c_email : option string;
  c_role : option string;
  iat : option Z;
  exp : option Z;
  iss : option string;
  aud : list string
}.

(** A decoded token. The signature is symbolic: [signed_with] is the key
    under which the signature over the claims verifies, if there is one. *)
Record Token := {
  claims : Claims;
  signed_with : option string
}.

Record SignOptions := {
  expiresIn : Z;
  so_issuer : string;
  so_audience : string
}.

Record VerifyOptions := {
  vo_issuer : string;
  vo_audience : string
}.

Definition seven_days : Z := 7 * 24 * 60 * 60.
Definition thirty_days : Z := 30 * 24 * 60 * 60.

(** The clock of the library: [Math.floor(Date.now() / 1000)]. *)
Definition clockTimestamp (now : Z) : Z := now / 1000.

(** [jwt.sign(payload, secret, options)] of the [jsonwebtoken] package,
    before serialisation. *)
Definition sign (uid : string) (em ro : option string) (secret : string)
    (o : SignOptions) (now : Z) : Token :=
  {| claims := {| userId := Some uid;
                  c_email := em;
                  c_role := ro;
                  iat := Some (clockTimestamp now);
                  exp := Some (clockTimestamp now + expiresIn o);
                  iss := Some (so_issuer o);
                  aud := [so_audience o] |};
     signed_with := Some secret |}.

(** [jwt.verify(token, secret, options)] of the [jsonwebtoken] package on
    a decoded token: its checks of the signature, the expiry, the audience
    and the issuer, in the package's order, each failure an exception
    carrying the package's message. A token without [exp] does not expire;
    [aud] may name several audiences, one of which has to be the expected
    one. *)
Definition verify_decoded (t : Token) (secret : string) (o : VerifyOptions)
    (now : Z) : Claims + string :=
  if negb (bool_decide (signed_with t = Some secret)) then
    inr "invalid signature"
  else if match exp (claims t) with
          | Some e => Z.leb e (clockTimestamp now)
          | None => false
          end then
    inr "jwt expired"
  else if negb (existsb (String.eqb (vo_audience o)) (aud (claims t))) then
    inr ("jwt audience invalid. expected: " +:+ vo_audience o)
  else if negb (bool_decide (iss (claims t) = Some (vo_issuer o))) then
    inr ("jwt issuer invalid. expected: " +:+ vo_issuer o)
  else
    inl (claims t).

Definition api_verify_options : VerifyOptions :=
  {| vo_issuer := "taskflow-api"; vo_audience := "taskflow-app" |}.

Section Codec.

(** Decoding of the compact serialisation; [None] for a string that is
    not a well-formed token. For such a string the package throws with
    one of several messages ("jwt malformed", "invalid token", "jwt must
    be provided"); [verify] carries the first for all of them. *)
Variable decode : string -> option Token.

Definition verify (token secret : string) (o : VerifyOptions) (now : Z)
    : Claims + string :=
  match decode token with
  | None => inr "jwt malformed"
  | Some t => verify_decoded t secret o now
  end.

(** [verifyAccessToken]: the payload, or the exception it throws. *)
Definition verifyAccessToken (e : Env) (now : Z) (token : string)
    : Claims + string :=
  match verify token (JWT_SECRET e) api_verify_options now with
  | inl payload => inl payload
  | inr message => inr ("Invalid or expired access token: " +:+ message)
  end.

(** [verifyRefreshToken]. *)
Definition verifyRefreshToken (e : Env) (now : Z) (token : string)
    : Claims + string :=
  match verify token (JWT_REFRESH_SECRET e) api_verify_options now with
  | inl payload => inl payload
  | inr message => inr ("Invalid or expired refresh token: " +:+ message)
  end.

End Codec.

(** [generateAccessToken] and [generateRefreshToken], before
    serialisation. *)
Definition generateAccessToken (e : Env) (now : Z) (user : IUser) : Token :=
  sign (_id user) (Some (email user)) (Some (role_string (role user)))
    (JWT_SECRET e)
    {| expiresIn := seven_days;
       so_issuer := "taskflow-api";
       so_audience := "taskflow-app" |}
    now.

Definition generateRefreshToken (e : Env) (now : Z) (uid : string) : Token :=
  sign uid None None (JWT_REFRESH_SECRET e)
    {| expiresIn := thirty_days;
       so_issuer := "taskflow-api";
       so_audience := "taskflow-app" |}
    now.

(** [extractTokenFromHeader]. *)
Definition extractTokenFromHeader (authHeader : option string)
    : option string :=
  match authHeader with
  | None => None
  | Some h =>
      if Js.falsy (Some h) then None
      else if negb (Js.startsWith "Bearer " h) then None
      else Some (Js.substring_from 7 h)
  end.

End Jwt.

(** ** The response written to [res] *)

(** The [data] member of the response envelope. *)
Inductive ResponseData :=
  | NoData
  | UserSummary (id em first last : string) (verified : bool)
  | LoginData (id em first last : string) (av : option string)
      (verified : bool) (ro : Role) (prefs : Preferences)
      (last_login : option Z) (token : Jwt.Token)
  | ProfileData (user : IUserNoPassword).

Record Response := {
  status : Z;
  success : bool;
  message : string;
  data : ResponseData;
  retryAfter : option Z;
  errorId : option string;
  refreshTokenCookie : option Jwt.Token
}.

(** [res.status(code).json({ success: false, message })]. *)
Definition failure (code : Z) (msg : string) : Response :=
  {| status := code; success := false; message := msg; data := NoData;
     retryAfter := None; errorId := None; refreshTokenCookie := None |}.

(** [res.status(code).json({ success: true, message, data })]. *)
Definition ok (code : Z) (msg : string) (d : ResponseData) : Response :=
  {| status := code; success := true; message := msg; data := d;
     retryAfter := None; errorId := None; refreshTokenCookie := None |}.

(** What a middleware does with a request: it answers, or it calls
    [next()] with what it attached to the request. *)
Inductive Outcome (A : Type) :=
  | Respond (r : Response)
  | Next (attached : A).
Arguments Respond {A} r.
Arguments Next {A} attached.

(** ** [middleware/auth.ts] *)

Module Middleware.

Section Authenticate.

Variable decode : string -> option Jwt.Token.

(** [authenticate]: [authorization] is [req.headers.authorization]; on
    success the document without its password is [req.user]. *)
Definition authenticate (e : Jwt.Env) (st : Store.t) (now : Z)
    (authorization : option string) : Outcome IUserNoPassword :=
  let token := Jwt.extractTokenFromHeader authorization in
  if Js.falsy token then
    Respond (failure 401 "Access denied. No token provided.")
  else
    match Jwt.verifyAccessToken decode e now (default "" token) with
    | inr _ => Respond (failure 401 "Invalid or expired token.")
    | inl decoded =>
        match select_minus_password
                <$> Store.findById (Jwt.userId decoded) st with
        | None => Respond (failure 401 "User not found.")
        | Some user =>
            if negb (np_isActive user) then
              Respond (failure 401 "Account has been deactivated.")
            else Next user
        end
    end.

(** [optionalAuth]: the same path, but every failure falls through to
    [next()] with no user attached. *)
Definition optionalAuth (e : Jwt.Env) (st : Store.t) (now : Z)
    (authorization : option string) : Outcome (option IUserNoPassword) :=
  let token := Jwt.extractTokenFromHeader authorization in
  if Js.falsy token then Next None
  else
    match Jwt.verifyAccessToken decode e now (default "" token) with
    | inr _ => Next None
    | inl decoded =>
        match select_minus_password
                <$> Store.findById (Jwt.userId decoded) st with
        | Some user => if np_isActive user then Next (Some user)
                       else Next None
        | None => Next None
        end
    end.

End Authenticate.

(** [authorize(...roles)], run on what [authenticate] attached. *)
Definition authorize (roles : list string) (user : option IUserNoPassword)
    : Outcome IUserNoPassword :=
  match user with
  | None => Respond (failure 401 "Authentication required.")
  | Some u =>
      if negb (existsb (String.eqb (role_string (np_role u))) roles) then
        Respond (failure 403
                   "Insufficient permissions to access this resource.")
      else Next u
  end.

(** [requireEmailVerification], run on what [authenticate] attached. *)
Definition requireEmailVerification (user : IUserNoPassword)
    : Outcome IUserNoPassword :=
  if negb (np_isEmailVerified user) then
    Respond (failure 403
               "Please verify your email address to access this resource.")
  else Next user.

(** One entry of the [clients] map of a rate limiter. *)
Record Client := {
  count : Z;
  resetTime : Z
}.

(** The 429 response of the rate limiter. *)
Definition tooManyRequests (retry : Z) : Response :=
  {| status := 429; success := false;
     message := "Too many requests. Please try again later.";
     data := NoData; retryAfter := Some retry; errorId := None;
     refreshTokenCookie := None |}.

(** [new Map()]: the [clients] map of a limiter that has served nothing. *)
Definition noClients : gmap string Client := ∅.

(** [createRateLimiter(maxRequests, windowMs)]: the middleware it returns,
    with the [clients] map the closure holds passed in and out. [ip] is
    [req.ip] and [now] is [Date.now()]. The numbers are integers; the
    arithmetic is that of the program as long as the times and
    [now + windowMs] stay within [Js.MAX_SAFE_INTEGER]. *)
Definition createRateLimiter (maxRequests windowMs : Z)
    (clients : gmap string Client) (ip : option string) (now : Z)
    : gmap string Client * Outcome unit :=
  let clientId := Js.or_else ip "unknown" in
  match clients !! clientId with
  | None =>
      (<[clientId := {| count := 1; resetTime := now + windowMs |}]> clients,
       Next tt)
  | Some client =>
      if Z.ltb (resetTime client) now then
        (<[clientId := {| count := 1; resetTime := now + windowMs |}]>
           clients,
         Next tt)
      else if Z.leb maxRequests (count client) then
        (clients,
         Respond (tooManyRequests
                    (Js.ceil_div (resetTime client - now) 1000)))
      else
        (<[clientId := {| count := count client + 1;
                          resetTime := resetTime client |}]> clients,
         Next tt)
  end.

(** The limiter of the credential routes:
    [createRateLimiter(5, 15 * 60 * 1000)]. *)
Definition authRateLimit := createRateLimiter 5 (15 * 60 * 1000).

(** The limiter of [GET /verify-email]:
    [createRateLimiter(10, 60 * 1000)]. *)
Definition generalRateLimit := createRateLimiter 10 (60 * 1000).

(** A limiter serving a sequence of requests [(ip, now)], oldest first. *)
Fixpoint serve
    (limiter : gmap string Client -> option string -> Z
               -> gmap string Client * Outcome unit)
    (clients : gmap string Client) (requests : list (option string * Z))
    : gmap string Client * list (Outcome unit) :=
  match requests with
  | [] => (clients, [])
  | (ip, now) :: rest =>
      let '(clients', o) := limiter clients ip now in
      let '(clients'', os) := serve limiter clients' rest in
      (clients'', o :: os)
  end.

End Middleware.

(** ** Assignments to the fields of a user document *)

Definition set_emailVerification (tok : option string) (expires : option Z)
    (u : IUser) : IUser :=
  {| _id := _id u; email := email u; password := password u;
     firstName := firstName u; lastName := lastName u; avatar := avatar u;
     isEmailVerified := isEmailVerified u;
     emailVerificationToken := tok;
     emailVerificationExpires := expires;
     passwordResetToken := passwordResetToken u;
     passwordResetExpires := passwordResetExpires u;
     lastLogin := lastLogin u; isActive := isActive u; role := role u;
     preferences := preferences u; createdAt := createdAt u;
     updatedAt := updatedAt u |}.

Definition set_passwordReset (tok : option string) (expires : option Z)
    (u : IUser) : IUser :=
  {| _id := _id u; email := email u; password := password u;
     firstName := firstName u; lastName := lastName u; avatar := avatar u;
     isEmailVerified := isEmailVerified u;
     emailVerificationToken := emailVerificationToken u;
     emailVerificationExpires := emailVerificationExpires u;
     passwordResetToken := tok;
     passwordResetExpires := expires;
     lastLogin := lastLogin u; isActive := isActive u; role := role u;
     preferences := preferences u; createdAt := createdAt u;
     updatedAt := updatedAt u |}.

Definition set_isEmailVerified (b : bool) (u : IUser) : IUser :=
  {| _id := _id u; email := email u; password := password u;
     firstName := firstName u; lastName := lastName u; avatar := avatar u;
     isEmailVerified := b;
     emailVerificationToken := emailVerificationToken u;
     emailVerificationExpires := emailVerificationExpires u;
     passwordResetToken := passwordResetToken u;
     passwordResetExpires := passwordResetExpires u;
     lastLogin := lastLogin u; isActive := isActive u; role := role u;
     preferences := preferences u; createdAt := createdAt u;
     updatedAt := updatedAt u |}.

Definition set_password (p : string) (u : IUser) : IUser :=
  {| _id := _id u; email := email u; password := p;
     firstName := firstName u; lastName := lastName u; avatar := avatar u;
     isEmailVerified := isEmailVerified u;
     emailVerificationToken := emailVerificationToken u;
     emailVerificationExpires := emailVerificationExpires u;
     passwordResetToken := passwordResetToken u;
     passwordResetExpires := passwordResetExpires u;
     lastLogin := lastLogin u; isActive := isActive u; role := role u;
     preferences := preferences u; createdAt := createdAt u;
     updatedAt := updatedAt u |}.

Definition set_lastLogin (t : option Z) (u : IUser) : IUser :=
  {| _id := _id u; email := email u; password := password u;
     firstName := firstName u; lastName := lastName u; avatar := avatar u;
     isEmailVerified := isEmailVerified u;
     emailVerificationToken := emailVerificationToken u;
     emailVerificationExpires := emailVerificationExpires u;
     passwordResetToken := passwordResetToken u;
     passwordResetExpires := passwordResetExpires u;
     lastLogin := t; isActive := isActive u; role := role u;
     preferences := preferences u; createdAt := createdAt u;
     updatedAt := updatedAt u |}.

(** ** [controllers/authController.ts] *)

Module AuthController.

(** The value of [req.query.token]: absent, a string, or a parsed array
    or object. *)
Inductive QueryValue :=
  | QAbsent
  | QString (s : string)
  | QOther.

(** The two kinds of single-use token a user document stores. *)
Inductive TokenKind := EmailVerification | PasswordReset.

Definition storedHash (k : TokenKind) (u : IUser) : option string :=
  match k with
  | EmailVerification => emailVerificationToken u
  | PasswordReset => passwordResetToken u
  end.

Definition storedExpires (k : TokenKind) (u : IUser) : option Z :=
  match k with
  | EmailVerification => emailVerificationExpires u
  | PasswordReset => passwordResetExpires u
  end.

(** The validity window of each kind, in milliseconds: 24 hours and 10
    minutes. *)
Definition window (k : TokenKind) : Z :=
  match k with
  | EmailVerification => 24 * 60 * 60 * 1000
  | PasswordReset => 10 * 60 * 1000
  end.

(** The query [{ <kind>Token: hashed, <kind>Expires: { $gt: now } }]. *)
Definition liveTokenQuery (k : TokenKind) (hashed : string) (now : Z)
    (d : IUser) : bool :=
  bool_decide (storedHash k d = Some hashed)
  && match storedExpires k d with
     | Some e => Z.ltb now e
     | None => false
     end.

Definition invalidOrExpired (k : TokenKind) : Response :=
  match k with
  | EmailVerification =>
      failure 400 "Invalid or expired verification token."
  | PasswordReset => failure 400 "Invalid or expired reset token."
  end.

Definition resetLinkSent : Response :=
  ok 200
    "If an account with this email exists, a password reset link has been sent."
    NoData.

Definition invalidCredentials : Response :=
  failure 401 "Invalid email or password.".

Definition serverError (msg uuid : string) : Response :=
  {| status := 500; success := false; message := msg; data := NoData;
     retryAfter := None; errorId := Some uuid; refreshTokenCookie := None |}.

Section Controllers.

(** [crypto.createHash('sha256').update(s).digest('hex')]. *)
Variable sha256 : string -> string.
(** [s.toLowerCase()]. *)
Variable toLowerCase : string -> string.
(** [user.comparePassword(candidate)], on the stored password. *)
Variable comparePassword : string -> string -> bool.
(** The credential hasher that the user model applies, when the document
    is saved, to a password that was assigned. *)
Variable hashPassword : string -> string.

(** Modelled from the spec: [user.generateEmailVerificationToken()] and
    [user.generatePasswordResetToken()] of the user model
    ([Models/user]), whose source is not at hand. The design document
    has [issue(kind)] take a random value, persist
    [(hash, expiry = now + window[kind])] onto the identity and return
    the plaintext; [random] is the value drawn. *)
Definition generateToken (k : TokenKind) (random : string) (now : Z)
    (u : IUser) : string * IUser :=
  (random,
   match k with
   | EmailVerification =>
       set_emailVerification (Some (sha256 random))
         (Some (now + window EmailVerification)) u
   | PasswordReset =>
       set_passwordReset (Some (sha256 random))
         (Some (now + window PasswordReset)) u
   end).

Definition generateEmailVerificationToken := generateToken EmailVerification.
Definition generatePasswordResetToken := generateToken PasswordReset.

Definition byEmail (e : string) (d : IUser) : bool :=
  String.eqb (email d) (toLowerCase e).

(** [login]. [e] supplies the signing keys. *)
Definition login (e : Jwt.Env) (st : Store.t) (now : Z)
    (em pw : option string) : Store.t * Response :=
  if Js.falsy em || Js.falsy pw then
    (st, failure 400 "Email and password are required.")
  else
    match Store.findOne (byEmail (default "" em)) st with
    | None => (st, invalidCredentials)
    | Some user =>
        if negb (isActive user) then
          (st, failure 401
                 "Account has been deactivated. Please contact support.")
        else if negb (comparePassword (default "" pw) (password user)) then
          (st, invalidCredentials)
        else
          let user := set_lastLogin (Some now) user in
          let accessToken := Jwt.generateAccessToken e now user in
          let refreshToken := Jwt.generateRefreshToken e now (_id user) in
          (Store.save user st,
           {| status := 200; success := true;
              message := "Login successful.";
              data := LoginData (_id user) (email user) (firstName user)
                        (lastName user) (avatar user)
                        (isEmailVerified user) (role user)
                        (preferences user) (lastLogin user) accessToken;
              retryAfter := None; errorId := None;
              refreshTokenCookie := Some refreshToken |})
    end.

(** [verifyEmail]. The welcome mail is best effort and leaves no trace
    in the response or the store. *)
Definition verifyEmail (st : Store.t) (now : Z) (token : QueryValue)
    : Store.t * Response :=
  match token with
  | QString t =>
      if Js.falsy (Some t) then
        (st, failure 400 "Invalid verification token.")
      else
        let hashedToken := sha256 t in
        match Store.findOne
                (liveTokenQuery EmailVerification hashedToken now) st with
        | None => (st, invalidOrExpired EmailVerification)
        | Some user =>
            let user :=
              set_emailVerification None None
                (set_isEmailVerified true user) in
            (Store.save user st,
             ok 200 "Email verified successfully."
               (UserSummary (_id user) (email user) (firstName user)
                  (lastName user) (isEmailVerified user)))
        end
  | _ => (st, failure 400 "Invalid verification token.")
  end.

(** [resendVerification]. [sent] tells whether the mail transport
    accepted the message; [uuid] is the correlation id drawn on
    failure. *)
Definition resendVerification (st : Store.t) (now : Z)
    (em : option string) (random : string) (sent : bool) (uuid : string)
    : Store.t * Response :=
  if Js.falsy em then (st, failure 400 "Email is required.")
  else
    match Store.findOne (byEmail (default "" em)) st with
    | None => (st, failure 404 "User not found.")
    | Some user =>
        if isEmailVerified user then
          (st, failure 400 "Email is already verified.")
        else
          let '(_, user) := generateEmailVerificationToken random now user in
          let st := Store.save user st in
          if sent then
            (st, ok 200 "Verification email sent successfully." NoData)
          else
            (st, serverError "Failed to send verification email." uuid)
    end.

(** [forgotPassword]. *)
Definition forgotPassword (st : Store.t) (now : Z) (em : option string)
    (random : string) (sent : bool) (uuid : string)
    : Store.t * Response :=
  if Js.falsy em then (st, failure 400 "Email is required.")
  else
    match Store.findOne (byEmail (default "" em)) st with
    | None => (st, resetLinkSent)
    | Some user =>
        let '(_, user) := generatePasswordResetToken random now user in
        let st := Store.save user st in
        if sent then (st, resetLinkSent)
        else (st, serverError "Failed to send password reset email." uuid)
    end.

(** [resetPassword]. *)
Definition resetPassword (st : Store.t) (now : Z)
    (token newPassword : option string) : Store.t * Response :=
  if Js.falsy token || Js.falsy newPassword then
    (st, failure 400 "Token and new password are required.")
  else if Nat.ltb (Js.length (default "" newPassword)) 8 then
    (st, failure 400 "Password must be at least 8 characters long.")
  else
    let hashedToken := sha256 (default "" token) in
    match Store.findOne
            (liveTokenQuery PasswordReset hashedToken now) st with
    | None => (st, invalidOrExpired PasswordReset)
    | Some user =>
        let user :=
          set_passwordReset None None
            (set_password (hashPassword (default "" newPassword)) user) in
        (Store.save user st,
         ok 200 "Password has been reset successfully." NoData)
    end.

(** [getProfile], on the user [authenticate] attached. *)
Definition getProfile (user : IUserNoPassword) : Response :=
  ok 200 "Profile retrieved successfully." (ProfileData user).

(** [router.get('/profile', authenticate, getProfile)]. *)
Definition profileRoute (decode : string -> option Jwt.Token)
    (e : Jwt.Env) (st : Store.t) (now : Z)
    (authorization : option string) : Response :=
  match Middleware.authenticate decode e st now authorization with
  | Respond r => r
  | Next user => getProfile user
  end.

End Controllers.

End AuthController.

(** ** [routes/authRoutes.ts] *)

Module AuthRoutes.

Import Middleware AuthController.

(** What the routes work on: the [clients] maps of the two limiters the
    module creates, [authRateLimit] and [generalRateLimit], and the user
    collection. *)
Record Server := {
  authClients : gmap string Client;
  generalClients : gmap string Client;
  users : Store.t
}.

(** [router.<method>(path, limiter, controller)]: the controller runs only
    if the limiter calls [next()]. *)
Definition limited
    (limiter : gmap string Client -> option string -> Z
               -> gmap string Client * Outcome unit)
    (clients : gmap string Client) (ip : option string) (now : Z)
    (st : Store.t) (controller : Store.t -> Store.t * Response)
    : gmap string Client * Store.t * Response :=
  match limiter clients ip now with
  | (clients', Respond r) => (clients', st, r)
  | (clients', Next _) =>
      let '(st', r) := controller st in (clients', st', r)
  end.

(** A request to one of the routes whose controller is embedded here; the
    fields are those of the body, the query or the headers the controller
    reads, with the values drawn while it is handled. [POST /register] and
    [POST /logout] are not among them. *)
Inductive Request :=
  | PostLogin (em pw : option string)
  | GetVerifyEmail (token : QueryValue)
  | PostResendVerification (em : option string) (random : string)
      (sent : bool) (uuid : string)
  | PostForgotPassword (em : option string) (random : string)
      (sent : bool) (uuid : string)
  | PostResetPassword (token newPassword : option string)
  | GetProfile (authorization : option string).

(** The routes registered with [authRateLimit]. *)
Definition usesAuthRateLimit (req : Request) : bool :=
  match req with
  | PostLogin _ _ | PostResendVerification _ _ _ _
  | PostForgotPassword _ _ _ _ | PostResetPassword _ _ => true
  | GetVerifyEmail _ | GetProfile _ => false
  end.

Section Router.

Variable sha256 : string -> string.
Variable toLowerCase : string -> string.
Variable comparePassword : string -> string -> bool.
Variable hashPassword : string -> string.
Variable decode : string -> option Jwt.Token.
Variable e : Jwt.Env.

(** The controller a request is routed to. *)
Definition controllerOf (now : Z) (req : Request) (st : Store.t)
    : Store.t * Response :=
  match req with
  | PostLogin em pw => login toLowerCase comparePassword e st now em pw
  | GetVerifyEmail token => verifyEmail sha256 st now token
  | PostResendVerification em random sent uuid =>
      resendVerification sha256 toLowerCase st now em random sent uuid
  | PostForgotPassword em random sent uuid =>
      forgotPassword sha256 toLowerCase st now em random sent uuid
  | PostResetPassword token newPassword =>
      resetPassword sha256 hashPassword st now token newPassword
  | GetProfile authorization =>
      (st, profileRoute decode e st now authorization)
  end.

(** The router: [ip] is [req.ip] and [now] the time of the request. *)
Definition handle (srv : Server) (ip : option string) (now : Z)
    (req : Request) : Server * Response :=
  match req with
  | PostLogin _ _ | PostResendVerification _ _ _ _
  | PostForgotPassword _ _ _ _ | PostResetPassword _ _ =>
      let '(clients, st, r) :=
        limited authRateLimit (authClients srv) ip now (users srv)
          (controllerOf now req) in
      ({| authClients := clients; generalClients := generalClients srv;
          users := st |}, r)
  | GetVerifyEmail _ =>
      let '(clients, st, r) :=
        limited generalRateLimit (generalClients srv) ip now (users srv)
          (controllerOf now req) in
      ({| authClients := authClients srv; generalClients := clients;
          users := st |}, r)
  | GetProfile _ =>
      let '(st, r) := controllerOf now req (users srv) in
      ({| authClients := authClients srv;
          generalClients := generalClients srv; users := st |}, r)
  end.

(** The router handling requests [(ip, now, request)] one after another. *)
Fixpoint run (srv : Server) (requests : list (option string * Z * Request))
    : Server * list Response :=
  match requests with
  | [] => (srv, [])
  | (ip, now, req) :: rest =>
      let '(srv', r) := handle srv ip now req in
      let '(srv'', rs) := run srv' rest in
      (srv'', r :: rs)
  end.

End Router.

End AuthRoutes.

(** ** The client: [services/authService.ts] *)

Module AuthService.

(** The request interceptor: the [Authorization] header it sets from
    [localStorage.getItem('authToken')]. *)
Definition authorizationHeader (token : option string) : option string :=
  if Js.falsy token then None else Some ("Bearer " +:+ default "" token).

(** The JSON body of [api.post('/login', { email, password })]. *)
Definition signInBody (em pw : string) : gmap string string :=
  <["email" := em]> (<["password" := pw]> ∅).

(** The JSON body of
    [api.post('/reset-password', { token, password: newPassword })]. *)
Definition resetPasswordBody (token newPassword : string)
    : gmap string string :=
  <["token" := token]> (<["password" := newPassword]> ∅).

Section Server.

Variable sha256 : string -> string.
Variable toLowerCase : string -> string.
Variable comparePassword : string -> string -> bool.
Variable hashPassword : string -> string.

(** [login] with [const { email, password } = req.body]. *)
Definition loginOfBody (e : Jwt.Env) (st : Store.t) (now : Z)
    (body : gmap string string) : Store.t * Response :=
  AuthController.login toLowerCase comparePassword e st now
    (body !! "email") (body !! "password").

(** [resetPassword] with [const { token, newPassword } = req.body]. *)
Definition resetPasswordOfBody (st : Store.t) (now : Z)
    (body : gmap string string) : Store.t * Response :=
  AuthController.resetPassword sha256 hashPassword st now
    (body !! "token") (body !! "newPassword").

End Server.

End AuthService.

(** ** The client: [utils/errorLogger.ts] *)

Module ErrorLogger.

Record ErrorDetails := {
  timestamp : string;
  ed_errorId : string;
  ed_message : string;
  stack : option string;
  component : option string;
  action : option string;
  userAgent : option string;
  url : option string;
  additionalData : option string
}.

(** [maxErrors]. *)
Definition maxErrors : nat := 100.

(** [this.errors.push(details)] followed by the [shift()] that drops the
    oldest entry once the list is longer than [maxErrors]. *)
Definition remember (details : ErrorDetails) (errors : list ErrorDetails)
    : list ErrorDetails :=
  let errors := (errors ++ [details])%list in
  if Nat.ltb maxErrors (List.length errors) then List.tl errors else errors.

(** [log(error, context)]: [message] and [stk] are the message and stack
    of [error]; the time stamp, the generated id, [navigator.userAgent]
    and [window.location.href] are passed in. The new list and the id
    returned. *)
Definition log (now_iso id message : string) (stk : option string)
    (comp act : option string) (agent href : string)
    (extra : option string) (errors : list ErrorDetails)
    : list ErrorDetails * string :=
  (remember {| timestamp := now_iso; ed_errorId := id;
               ed_message := message; stack := stk; component := comp;
               action := act; userAgent := Some agent; url := Some href;
               additionalData := extra |} errors,
   id).

(** [array.slice(start)] for an integer [start]. *)
Definition slice_from {A : Type} (start : Z) (l : list A) : list A :=
  let len := Z.of_nat (List.length l) in
  let k := if Z.ltb start 0 then Z.max (len + start) 0 else Z.min start len in
  List.skipn (Z.to_nat k) l.

(** [getRecentErrors(limit)]. *)
Definition getRecentErrors (limit : Z) (errors : list ErrorDetails)
    : list ErrorDetails :=
  slice_from (- limit) errors.

(** [clearErrors()]. *)
Definition clearErrors (errors : list ErrorDetails) : list ErrorDetails := [].

End ErrorLogger.

(** ** A small deployment to run the definitions on *)

Module Sample.

(** The shape of a digest: deterministic and injective. *)
Definition sha256 (s : string) : string := "sha256:" +:+ s.

Definition lower_ascii (c : ascii) : ascii :=
  let n := nat_of_ascii c in
  if (Nat.leb 65 n && Nat.leb n 90)%bool then ascii_of_nat (n + 32) else c.

Fixpoint toLowerCase (s : string) : string :=
  match s with
  | EmptyString => EmptyString
  | String c rest => String (lower_ascii c) (toLowerCase rest)
  end.

Definition hashPassword (p : string) : string := "bcrypt:" +:+ p.

Definition comparePassword (candidate stored : string) : bool :=
  String.eqb (hashPassword candidate) stored.

Definition prefs : Preferences :=
  {| notifications := {| n_email := true; n_push := true;
                         n_mentions := true; n_assignments := true |};
     theme := ThemeSystem;
     language := "en" |}.

(** An account with neither single-use token outstanding. *)
Definition account (id em pw : string) (active verified : bool) : IUser :=
  {| _id := id; email := em; password := hashPassword pw;
     firstName := "Test"; lastName := "User"; avatar := None;
     isEmailVerified := verified;
     emailVerificationToken := None; emailVerificationExpires := None;
     passwordResetToken := None; passwordResetExpires := None;
     lastLogin := None; isActive := active; role := RoleUser;
     preferences := prefs; createdAt := 0; updatedAt := 0 |}.

Definition alice : IUser := account "u1" "alice@x.com" "longenough1" true true.
Definition bob : IUser := account "u2" "bob@x.com" "hunter2hunter2" true false.
Definition carol : IUser := account "u3" "carol@x.com" "correcthorse" false true.

(** Bob with a verification token issued at time 0. *)
Definition bob_pending : IUser :=
  set_emailVerification (Some (sha256 "v-token-1")) (Some 86400000) bob.

(** Alice with a reset token issued at time 0. *)
Definition alice_resetting : IUser :=
  set_passwordReset (Some (sha256 "r-token-1")) (Some 600000) alice.

(** Carol with a verification token that ran out at time 5. *)
Definition carol_expired : IUser :=
  set_passwordReset (Some (sha256 "r-token-9")) (Some 5)
    (set_emailVerification (Some (sha256 "v-token-9")) (Some 5) carol).

Definition users : Store.t := [alice; bob; carol].
Definition users_pending : Store.t := [alice_resetting; bob_pending; carol_expired].

(** No secret configured: the defaults of [utils/jwt.ts] apply. *)
Definition env : Jwt.Env :=
  {| Jwt.env_JWT_SECRET := None; Jwt.env_JWT_REFRESH_SECRET := None |}.

(** A codec that knows the two tokens issued to Alice at time 0 and
    one token of another issuer. *)
Definition foreign : Jwt.Token :=
  Jwt.sign "u1" None None (Jwt.JWT_SECRET env)
    {| Jwt.expiresIn := Jwt.seven_days; Jwt.so_issuer := "someone-else";
       Jwt.so_audience := "some-app" |} 0.

Definition decode (s : string) : option Jwt.Token :=
  if String.eqb s "alice.access" then
    Some (Jwt.generateAccessToken env 0 alice)
  else if String.eqb s "alice.refresh" then
    Some (Jwt.generateRefreshToken env 0 "u1")
  else if String.eqb s "carol.access" then
    Some (Jwt.generateAccessToken env 0 carol)
  else if String.eqb s "ghost.access" then
    Some (Jwt.generateAccessToken env 0 (account "u9" "g@x.com" "p" true true))
  else if String.eqb s "foreign" then Some foreign
  else None.

End Sample.

(** ** More of the sample deployment *)

Module Demo.

(** The codec of [Sample], which also knows the access token issued to
    Bob at time 0. *)
Definition decode (s : string) : option Jwt.Token :=
  if String.eqb s "bob.access" then
    Some (Jwt.generateAccessToken Sample.env 0 Sample.bob)
  else Sample.decode s.

(** A deployment whose two keys were set to the same value. *)
Definition one_key_env : Jwt.Env :=
  {| Jwt.env_JWT_SECRET := Some "k"; Jwt.env_JWT_REFRESH_SECRET := Some "k" |}.

Definition one_key_decode (s : string) : option Jwt.Token :=
  if String.eqb s "alice.access" then
    Some (Jwt.generateAccessToken one_key_env 0 Sample.alice)
  else None.

(** A token signed with the access key of [Sample.env] that names two
    audiences. *)
Definition two_audiences : Jwt.Token :=
  {| Jwt.claims := {| Jwt.userId := Some "u1";
                      Jwt.c_email := Some "alice@x.com";
                      Jwt.c_role := Some "user";
                      Jwt.iat := Some 0;
                      Jwt.exp := Some Jwt.seven_days;
                      Jwt.iss := Some "taskflow-api";
                      Jwt.aud := ["another-app"; "taskflow-app"] |};
     Jwt.signed_with := Some (Jwt.JWT_SECRET Sample.env) |}.

Definition two_audiences_decode (s : string) : option Jwt.Token :=
  if String.eqb s "two.audiences" then Some two_audiences else None.

(** A server that has served nothing yet. *)
Definition server (st : Store.t) : AuthRoutes.Server :=
  {| AuthRoutes.authClients := Middleware.noClients;
     AuthRoutes.generalClients := Middleware.noClients;
     AuthRoutes.users := st |}.

Definition entry (n : nat) : ErrorLogger.ErrorDetails :=
  {| ErrorLogger.timestamp := "2025-01-01T00:00:00.000Z";
     ErrorLogger.ed_errorId := String (ascii_of_nat (48 + n)) EmptyString;
     ErrorLogger.ed_message := "failed";
     ErrorLogger.stack := None; ErrorLogger.component := None;
     ErrorLogger.action := None; ErrorLogger.userAgent := None;
     ErrorLogger.url := None; ErrorLogger.additionalData := None |}.

End Demo.

(** ** Vocabulary of the properties *)

Module Spec.

(** A verifier rejects a token when it throws. *)
Definition throws {A : Type} (r : A + string) : bool :=
  match r with
  | inl _ => false
  | inr _ => true
  end.

(** The document [d] holds no live token of kind [k] for the digest
    [hashed] at time [now], for one of three reasons: no hash is stored,
    another hash is stored, or the stored expiry is not in the future. *)
Definition noLiveToken (k : AuthController.TokenKind) (hashed : string)
    (now : Z) (d : IUser) : Prop :=
  AuthController.storedHash k d = None
  \/ (exists h, AuthController.storedHash k d = Some h /\ h <> hashed)
  \/ (forall e, AuthController.storedExpires k d = Some e -> e <= now).

(** The digest [hashed] of kind [k] is stored on no document other than
    those with the identifier [id]. *)
Definition heldOnlyBy (k : AuthController.TokenKind) (hashed id : string)
    (st : Store.t) : Prop :=
  forall d, In d st -> AuthController.storedHash k d = Some hashed -> _id d = id.

(** Two stores that differ at most in the passwords they store. *)
Definition samePublicData (st1 st2 : Store.t) : Prop :=
  List.map select_minus_password st1 = List.map select_minus_password st2.

End Spec.

(** * Properties *)

(** ** Strings *)

Lemma prefix_append (p t : string) : String.prefix p (p +:+ t) = true.
Proof.
  induction p as [|c p IH]; simpl.
  - now destruct t.
  - destruct (ascii_dec c c); [exact IH | congruence].
Qed.

Lemma prefix_split (p s : string) :
  String.prefix p s = true -> exists t, s = p +:+ t.
Proof.
  revert s; induction p as [|c p IH]; intros s H.
  - now exists s.
  - destruct s as [|c' s]; simpl in H; [discriminate|].
    destruct (ascii_dec c c') as [->|]; [|discriminate].
    destruct (IH _ H) as [t ->]. now exists t.
Qed.

Lemma substring_all (s : string) : String.substring 0 (String.length s) s = s.
Proof. induction s as [|c s IH]; simpl; [reflexivity | now rewrite IH]. Qed.

Lemma substring_from_append (p t : string) :
  Js.substring_from (String.length p) (p +:+ t) = t.
Proof.
  unfold Js.substring_from.
  induction p as [|c p IH]; simpl.
  - rewrite Nat.sub_0_r. apply substring_all.
  - exact IH.
Qed.

Lemma falsy_Some (s : string) : Js.falsy (Some s) = false <-> s <> "".
Proof.
  unfold Js.falsy. destruct (bool_decide_reflect (s = "")); split; congruence.
Qed.

(** ** Bearer extraction *)

(** C8. [extractTokenFromHeader] is total, so it never raises; it returns a
    token exactly for a header of the form ["Bearer <token>"], and that
    token is what follows the prefix; for an absent header and for every
    other value it returns [None]. *)
Theorem extractTokenFromHeader_accepts_only_bearer (authHeader : option string) :
  (forall token,
      Jwt.extractTokenFromHeader authHeader = Some token
      <-> authHeader = Some ("Bearer " +:+ token))
  /\ (Jwt.extractTokenFromHeader authHeader = None
      <-> forall token, authHeader <> Some ("Bearer " +:+ token)).
Proof.
  assert (Hfwd : forall token,
             Jwt.extractTokenFromHeader authHeader = Some token
             <-> authHeader = Some ("Bearer " +:+ token)).
  { intros token. unfold Jwt.extractTokenFromHeader, Js.startsWith. split.
    - destruct authHeader as [h|]; [|discriminate].
      destruct (Js.falsy (Some h)); [discriminate|].
      destruct (String.prefix "Bearer " h) eqn:Hp; simpl; [|discriminate].
      destruct (prefix_split _ _ Hp) as [t ->]. intros [= <-].
      do 2 f_equal. symmetry. exact (substring_from_append "Bearer " t).
    - intros ->.
      replace (Js.falsy (Some ("Bearer " +:+ token))) with false
        by (symmetry; now apply falsy_Some).
      rewrite prefix_append. simpl negb. cbv iota.
      f_equal. exact (substring_from_append "Bearer " token). }
  split; [exact Hfwd|]. split.
  - intros Hn token Heq. apply Hfwd in Heq. congruence.
  - intros Hall.
    destruct (Jwt.extractTokenFromHeader authHeader) as [t|] eqn:E; [|reflexivity].
    destruct (Hall t). now apply Hfwd.
Qed.

(** ** Session tokens *)

Section SessionTokens.

Variable decode : string -> option Jwt.Token.

Lemma verify_inv (token secret : string) (o : Jwt.VerifyOptions) (now : Z)
    (payload : Jwt.Claims) :
  Jwt.verify decode token secret o now = inl payload ->
  exists t, decode token = Some t
    /\ payload = Jwt.claims t
    /\ Jwt.signed_with t = Some secret
    /\ (forall x, Jwt.exp (Jwt.claims t) = Some x -> Jwt.clockTimestamp now < x)
    /\ In (Jwt.vo_audience o) (Jwt.aud (Jwt.claims t))
    /\ Jwt.iss (Jwt.claims t) = Some (Jwt.vo_issuer o).
Proof.
  unfold Jwt.verify, Jwt.verify_decoded.
  destruct (decode token) as [t|]; [|discriminate].
  destruct (bool_decide_reflect (Jwt.signed_with t = Some secret)) as [Hk|];
    simpl; [|discriminate].
  destruct (match Jwt.exp (Jwt.claims t) with
            | Some x => (x <=? Jwt.clockTimestamp now)%Z
            | None => false
            end) eqn:Hexp; [discriminate|].
  destruct (existsb (String.eqb (Jwt.vo_audience o)) (Jwt.aud (Jwt.claims t)))
    eqn:Haud; simpl; [|discriminate].
  destruct (bool_decide_reflect
              (Jwt.iss (Jwt.claims t) = Some (Jwt.vo_issuer o))) as [Hi|];
    simpl; [|discriminate].
  intros [= <-]. exists t. repeat split; try assumption.
  - intros x Hx. rewrite Hx in Hexp. lia.
  - apply existsb_exists in Haud as (a & Hin & Heq).
    apply String.eqb_eq in Heq. now subst a.
Qed.

Lemma verifyAccessToken_inv (e : Jwt.Env) (now : Z) (token : string)
    (payload : Jwt.Claims) :
  Jwt.verifyAccessToken decode e now token = inl payload ->
  Jwt.verify decode token (Jwt.JWT_SECRET e) Jwt.api_verify_options now
  = inl payload.
Proof.
  unfold Jwt.verifyAccessToken.
  now destruct (Jwt.verify decode token (Jwt.JWT_SECRET e) _ now).
Qed.

Lemma verifyRefreshToken_inv (e : Jwt.Env) (now : Z) (token : string)
    (payload : Jwt.Claims) :
  Jwt.verifyRefreshToken decode e now token = inl payload ->
  Jwt.verify decode token (Jwt.JWT_REFRESH_SECRET e) Jwt.api_verify_options now
  = inl payload.
Proof.
  unfold Jwt.verifyRefreshToken.
  now destruct (Jwt.verify decode token (Jwt.JWT_REFRESH_SECRET e) _ now).
Qed.

Lemma throws_not_inl {A : Type} (r : A + string) :
  (forall a, r <> inl a) -> Spec.throws r = true.
Proof. destruct r as [a|m]; [intros H; now destruct (H a) | reflexivity]. Qed.

(** C7. The two verifiers use the keys [JWT_SECRET] and
    [JWT_REFRESH_SECRET], which a deployment that sets neither variable
    gets as two different defaults. Whenever the two keys differ, a token
    whose signature verifies under the access key is rejected by
    [verifyRefreshToken] and one whose signature verifies under the
    refresh key by [verifyAccessToken]. Whatever the keys, both verifiers
    reject a token whose issuer is not ["taskflow-api"], one whose
    audiences do not include ["taskflow-app"], and one whose expiry is not
    after the clock. The tokens [generateAccessToken] and
    [generateRefreshToken] issue are accepted by their own verifier until
    they expire and, the keys differing, rejected by the other one. *)
Theorem session_token_kinds_are_separated (e : Jwt.Env) (now : Z)
    (token : string) (t : Jwt.Token) :
  decode token = Some t ->
  let access := Jwt.verifyAccessToken decode e now token in
  let refresh := Jwt.verifyRefreshToken decode e now token in
  (Jwt.JWT_SECRET e <> Jwt.JWT_REFRESH_SECRET e ->
   Jwt.signed_with t = Some (Jwt.JWT_SECRET e) -> Spec.throws refresh = true)
  /\ (Jwt.JWT_SECRET e <> Jwt.JWT_REFRESH_SECRET e ->
      Jwt.signed_with t = Some (Jwt.JWT_REFRESH_SECRET e) ->
      Spec.throws access = true)
  /\ (Jwt.iss (Jwt.claims t) <> Some "taskflow-api" ->
      Spec.throws access = true /\ Spec.throws refresh = true)
  /\ (~ In "taskflow-app" (Jwt.aud (Jwt.claims t)) ->
      Spec.throws access = true /\ Spec.throws refresh = true)
  /\ (forall x, Jwt.exp (Jwt.claims t) = Some x -> x <= Jwt.clockTimestamp now ->
      Spec.throws access = true /\ Spec.throws refresh = true)
  /\ (forall user issued, t = Jwt.generateAccessToken e issued user ->
      (Jwt.JWT_SECRET e <> Jwt.JWT_REFRESH_SECRET e ->
       Spec.throws refresh = true)
      /\ (Jwt.clockTimestamp now < Jwt.clockTimestamp issued + Jwt.seven_days ->
          access = inl (Jwt.claims t)))
  /\ (forall uid issued, t = Jwt.generateRefreshToken e issued uid ->
      (Jwt.JWT_SECRET e <> Jwt.JWT_REFRESH_SECRET e ->
       Spec.throws access = true)
      /\ (Jwt.clockTimestamp now < Jwt.clockTimestamp issued + Jwt.thirty_days ->
          refresh = inl (Jwt.claims t)))
  /\ (Js.falsy (Jwt.env_JWT_SECRET e) = true ->
      Js.falsy (Jwt.env_JWT_REFRESH_SECRET e) = true ->
      Jwt.JWT_SECRET e <> Jwt.JWT_REFRESH_SECRET e).
Proof.
  intros Hdec access refresh.
  assert (Hacc : forall payload, access = inl payload ->
            Jwt.signed_with t = Some (Jwt.JWT_SECRET e)
            /\ (forall x, Jwt.exp (Jwt.claims t) = Some x ->
                          Jwt.clockTimestamp now < x)
            /\ In "taskflow-app" (Jwt.aud (Jwt.claims t))
            /\ Jwt.iss (Jwt.claims t) = Some "taskflow-api").
  { intros payload H. apply verifyAccessToken_inv, verify_inv in H.
    destruct H as (t' & Ht' & _ & H). rewrite Hdec in Ht'.
    injection Ht' as <-. exact H. }
  assert (Href : forall payload, refresh = inl payload ->
            Jwt.signed_with t = Some (Jwt.JWT_REFRESH_SECRET e)
            /\ (forall x, Jwt.exp (Jwt.claims t) = Some x ->
                          Jwt.clockTimestamp now < x)
            /\ In "taskflow-app" (Jwt.aud (Jwt.claims t))
            /\ Jwt.iss (Jwt.claims t) = Some "taskflow-api").
  { intros payload H. apply verifyRefreshToken_inv, verify_inv in H.
    destruct H as (t' & Ht' & _ & H). rewrite Hdec in Ht'.
    injection Ht' as <-. exact H. }
  assert (Hsep1 : Jwt.JWT_SECRET e <> Jwt.JWT_REFRESH_SECRET e ->
                  Jwt.signed_with t = Some (Jwt.JWT_SECRET e) ->
                  Spec.throws refresh = true).
  { intros Hkeys Hk. apply throws_not_inl. intros p Hp.
    destruct (Href p Hp) as (Hk' & _). congruence. }
  assert (Hsep2 : Jwt.JWT_SECRET e <> Jwt.JWT_REFRESH_SECRET e ->
                  Jwt.signed_with t = Some (Jwt.JWT_REFRESH_SECRET e) ->
                  Spec.throws access = true).
  { intros Hkeys Hk. apply throws_not_inl. intros p Hp.
    destruct (Hacc p Hp) as (Hk' & _). congruence. }
  split; [exact Hsep1|]. split; [exact Hsep2|].
  split; [|split; [|split; [|split; [|split]]]].
  - intros Hiss. split; apply throws_not_inl; intros p Hp.
    + destruct (Hacc p Hp) as (_ & _ & _ & Hi). contradiction.
    + destruct (Href p Hp) as (_ & _ & _ & Hi). contradiction.
  - intros Haud. split; apply throws_not_inl; intros p Hp.
    + destruct (Hacc p Hp) as (_ & _ & Ha & _). contradiction.
    + destruct (Href p Hp) as (_ & _ & Ha & _). contradiction.
  - intros x Hx Hle. split; apply throws_not_inl; intros p Hp.
    + destruct (Hacc p Hp) as (_ & Hlive & _). specialize (Hlive _ Hx). lia.
    + destruct (Href p Hp) as (_ & Hlive & _). specialize (Hlive _ Hx). lia.
  - intros user issued Ht. split.
    + intros Hkeys. apply (Hsep1 Hkeys). subst t. reflexivity.
    + intros Hlive. subst access t.
      unfold Jwt.verifyAccessToken, Jwt.verify. rewrite Hdec.
      unfold Jwt.verify_decoded, Jwt.generateAccessToken, Jwt.sign; simpl.
      rewrite bool_decide_true by reflexivity. simpl.
      destruct (Z.leb_spec (Jwt.clockTimestamp issued + Jwt.seven_days)
                  (Jwt.clockTimestamp now)); [lia | reflexivity].
  - intros uid issued Ht. split.
    + intros Hkeys. apply (Hsep2 Hkeys). subst t. reflexivity.
    + intros Hlive. subst refresh t.
      unfold Jwt.verifyRefreshToken, Jwt.verify. rewrite Hdec.
      unfold Jwt.verify_decoded, Jwt.generateRefreshToken, Jwt.sign; simpl.
      rewrite bool_decide_true by reflexivity. simpl.
      destruct (Z.leb_spec (Jwt.clockTimestamp issued + Jwt.thirty_days)
                  (Jwt.clockTimestamp now)); [lia | reflexivity].
  - intros H1 H2. unfold Jwt.JWT_SECRET, Jwt.JWT_REFRESH_SECRET, Js.or_else.
    rewrite H1, H2. discriminate.
Qed.

End SessionTokens.

(** C7, on the sample deployment, which sets neither key: the access
    token issued to Alice is turned down by the refresh-token verifier. *)
Lemma session_token_kinds_are_separated_witness :
  Spec.throws
    (Jwt.verifyRefreshToken Sample.decode Sample.env 1000 "alice.access")
  = true.
Proof.
  destruct (session_token_kinds_are_separated Sample.decode Sample.env
              1000 "alice.access" _ eq_refl)
    as (Hseparate & _ & _ & _ & _ & _ & _ & Hdefaults).
  exact (Hseparate (Hdefaults eq_refl eq_refl) eq_refl).
Defined.

(** C7 as the design document words it fails in two places. Nothing makes
    the two keys differ: in a deployment that sets both variables to the
    same value, the access token issued to Alice, signed with the access
    key, is accepted by the refresh-token verifier. And a token that names
    another audience beside ["taskflow-app"] is accepted by the
    access-token verifier. *)
Lemma session_token_kinds_not_separated_by_one_key :
  (exists t,
      Demo.one_key_decode "alice.access" = Some t
      /\ Jwt.signed_with t = Some (Jwt.JWT_SECRET Demo.one_key_env)
      /\ Spec.throws
           (Jwt.verifyRefreshToken Demo.one_key_decode Demo.one_key_env 1000
              "alice.access") = false)
  /\ (Demo.two_audiences_decode "two.audiences" = Some Demo.two_audiences
      /\ Jwt.aud (Jwt.claims Demo.two_audiences) <> ["taskflow-app"]
      /\ Spec.throws
           (Jwt.verifyAccessToken Demo.two_audiences_decode Sample.env 1000
              "two.audiences") = false).
Proof.
  split.
  - eexists. repeat split.
  - repeat split. discriminate.
Qed.

(** ** The authentication gate *)

Section Gate.

Variable decode : string -> option Jwt.Token.

(** C3. The five states of [authenticate]: no usable bearer token, a token
    that fails verification, a verified token whose subject is not in the
    store, an inactive identity, and an active identity. The first four
    answer 401; the last calls [next()] with the identity attached. No
    other outcome exists. *)
Theorem authenticate_state_machine (e : Jwt.Env) (st : Store.t) (now : Z)
    (authorization : option string) :
  let token := Jwt.extractTokenFromHeader authorization in
  let outcome := Middleware.authenticate decode e st now authorization in
  (Js.falsy token = true ->
     outcome = Respond (failure 401 "Access denied. No token provided."))
  /\ (forall tok message,
        token = Some tok -> tok <> "" ->
        Jwt.verifyAccessToken decode e now tok = inr message ->
        outcome = Respond (failure 401 "Invalid or expired token."))
  /\ (forall tok payload,
        token = Some tok -> tok <> "" ->
        Jwt.verifyAccessToken decode e now tok = inl payload ->
        Store.findById (Jwt.userId payload) st = None ->
        outcome = Respond (failure 401 "User not found."))
  /\ (forall tok payload user,
        token = Some tok -> tok <> "" ->
        Jwt.verifyAccessToken decode e now tok = inl payload ->
        Store.findById (Jwt.userId payload) st = Some user ->
        isActive user = false ->
        outcome = Respond (failure 401 "Account has been deactivated."))
  /\ (forall tok payload user,
        token = Some tok -> tok <> "" ->
        Jwt.verifyAccessToken decode e now tok = inl payload ->
        Store.findById (Jwt.userId payload) st = Some user ->
        isActive user = true ->
        outcome = Next (select_minus_password user))
  /\ ((exists r, outcome = Respond r /\ status r = 401)
      \/ (exists user, outcome = Next user)).
Proof.
  intros token outcome. subst outcome. unfold Middleware.authenticate.
  fold token. repeat split.
  - intros ->. reflexivity.
  - intros tok message -> Hne Hv.
    rewrite (proj2 (falsy_Some tok) Hne). simpl. now rewrite Hv.
  - intros tok payload -> Hne Hv Hf.
    rewrite (proj2 (falsy_Some tok) Hne). simpl. now rewrite Hv, Hf.
  - intros tok payload user -> Hne Hv Hf Ha.
    rewrite (proj2 (falsy_Some tok) Hne). simpl. rewrite Hv, Hf. simpl.
    now rewrite Ha.
  - intros tok payload user -> Hne Hv Hf Ha.
    rewrite (proj2 (falsy_Some tok) Hne). simpl. rewrite Hv, Hf. simpl.
    now rewrite Ha.
  - destruct (Js.falsy token); [left; eauto|].
    destruct (Jwt.verifyAccessToken decode e now (default "" token));
      [|left; eauto].
    destruct (Store.findById (Jwt.userId c) st) as [user|]; simpl;
      [|left; eauto].
    destruct (isActive user); simpl; [right | left]; eauto.
Qed.

Lemma find_projection {B : Type} (f : IUser -> B) (q : IUser -> bool)
    (q' : B -> bool) (l1 l2 : list IUser) :
  (forall d, q d = q' (f d)) ->
  List.map f l1 = List.map f l2 ->
  f <$> List.find q l1 = f <$> List.find q l2.
Proof.
  intros Hq. revert l2.
  induction l1 as [|a l1 IH]; intros [|b l2] Hmap; try discriminate.
  - reflexivity.
  - simpl in Hmap. injection Hmap as Hab Hrest. simpl.
    rewrite (Hq a), (Hq b), Hab.
    destruct (q' (f b)); simpl; [now rewrite Hab | now apply IH].
Qed.

Lemma findById_projection (id : option string) (st1 st2 : Store.t) :
  Spec.samePublicData st1 st2 ->
  select_minus_password <$> Store.findById id st1
  = select_minus_password <$> Store.findById id st2.
Proof.
  intros Hsame. destruct id as [i|]; [|reflexivity].
  unfold Store.findById, Store.findOne.
  apply (find_projection select_minus_password _
           (fun v => String.eqb (np_id v) i)); [reflexivity | exact Hsame].
Qed.

Lemma authenticate_projection (e : Jwt.Env) (st1 st2 : Store.t) (now : Z)
    (authorization : option string) :
  Spec.samePublicData st1 st2 ->
  Middleware.authenticate decode e st1 now authorization
  = Middleware.authenticate decode e st2 now authorization.
Proof.
  intros Hsame. unfold Middleware.authenticate.
  destruct (Js.falsy _); [reflexivity|].
  destruct (Jwt.verifyAccessToken _ _ _ _) as [payload|]; [|reflexivity].
  now rewrite (findById_projection (Jwt.userId payload) st1 st2 Hsame).
Qed.

(** C10. What [authenticate] attaches to an accepted request is a stored
    document read without its password, [GET /profile] answers with exactly
    that, and two stores that differ only in the passwords they hold give
    the same answer to every request. *)
Theorem profile_never_carries_the_password (e : Jwt.Env) (st1 st2 : Store.t)
    (now : Z) (authorization : option string) :
  Spec.samePublicData st1 st2 ->
  (forall user,
      Middleware.authenticate decode e st1 now authorization = Next user ->
      (exists d, In d st1 /\ user = select_minus_password d)
      /\ AuthController.profileRoute decode e st1 now authorization
         = ok 200 "Profile retrieved successfully." (ProfileData user))
  /\ AuthController.profileRoute decode e st1 now authorization
     = AuthController.profileRoute decode e st2 now authorization.
Proof.
  intros Hsame. split.
  - intros user Hauth. split.
    + unfold Middleware.authenticate in Hauth.
      destruct (Js.falsy _); [discriminate|].
      destruct (Jwt.verifyAccessToken _ _ _ _) as [payload|]; [|discriminate].
      destruct (Store.findById (Jwt.userId payload) st1) as [d|] eqn:Hf;
        simpl in Hauth; [|discriminate].
      destruct (isActive d); simpl in Hauth; [|discriminate].
      injection Hauth as <-. exists d. split; [|reflexivity].
      destruct (Jwt.userId payload) as [i|]; [|discriminate].
      now apply List.find_some in Hf.
    + unfold AuthController.profileRoute. now rewrite Hauth.
  - unfold AuthController.profileRoute.
    now rewrite (authenticate_projection e st1 st2 now authorization Hsame).
Qed.

End Gate.

(** C10, on the sample deployment: Alice's profile is the same whatever
    password hash her document holds. *)
Lemma profile_never_carries_the_password_witness :
  AuthController.profileRoute Sample.decode Sample.env Sample.users 1000
    (Some "Bearer alice.access")
  = AuthController.profileRoute Sample.decode Sample.env
      [set_password "another-hash" Sample.alice; Sample.bob; Sample.carol]
      1000 (Some "Bearer alice.access").
Proof.
  refine (proj2 (profile_never_carries_the_password Sample.decode Sample.env
                   Sample.users _ 1000 (Some "Bearer alice.access") _)).
  reflexivity.
Defined.

(** The five states of the gate on the sample deployment. *)
Example authenticate_no_token :
  Middleware.authenticate Sample.decode Sample.env Sample.users 1000
    (Some "Basic alice.access")
  = Respond (failure 401 "Access denied. No token provided.").
Proof. reflexivity. Qed.

Example authenticate_bad_token :
  Middleware.authenticate Sample.decode Sample.env Sample.users 1000
    (Some "Bearer alice.refresh")
  = Respond (failure 401 "Invalid or expired token.").
Proof. reflexivity. Qed.

Example authenticate_unknown_subject :
  Middleware.authenticate Sample.decode Sample.env Sample.users 1000
    (Some "Bearer ghost.access")
  = Respond (failure 401 "User not found.").
Proof. reflexivity. Qed.

Example authenticate_inactive :
  Middleware.authenticate Sample.decode Sample.env Sample.users 1000
    (Some "Bearer carol.access")
  = Respond (failure 401 "Account has been deactivated.").
Proof. reflexivity. Qed.

Example authenticate_active :
  Middleware.authenticate Sample.decode Sample.env Sample.users 1000
    (Some "Bearer alice.access")
  = Next (select_minus_password Sample.alice).
Proof. reflexivity. Qed.

(** ** The rate limiter *)

Section RateLimiter.

Import Middleware.

Variables maxRequests windowMs : Z.

Lemma ceil_div_bounds (x : Z) :
  1000 * (Js.ceil_div x 1000 - 1) < x <= 1000 * Js.ceil_div x 1000.
Proof.
  unfold Js.ceil_div.
  pose proof (Z.div_mod (- x) 1000 ltac:(lia)).
  pose proof (Z.mod_pos_bound (- x) 1000 ltac:(lia)).
  lia.
Qed.

Lemma ceil_div_nonneg (x : Z) : 0 <= x -> 0 <= Js.ceil_div x 1000.
Proof. pose proof (ceil_div_bounds x). lia. Qed.

Lemma ceil_div_pos (x : Z) : 0 < x -> 0 < Js.ceil_div x 1000.
Proof. pose proof (ceil_div_bounds x). lia. Qed.

Lemma limiter_first (clients : gmap string Client) (ip : option string)
    (now : Z) :
  clients !! Js.or_else ip "unknown" = None ->
  createRateLimiter maxRequests windowMs clients ip now
  = (<[Js.or_else ip "unknown" :=
         {| count := 1; resetTime := now + windowMs |}]> clients, Next tt).
Proof. intros H. unfold createRateLimiter. now rewrite H. Qed.

Lemma limiter_elapsed (clients : gmap string Client) (ip : option string)
    (now : Z) (c : Client) :
  clients !! Js.or_else ip "unknown" = Some c ->
  resetTime c < now ->
  createRateLimiter maxRequests windowMs clients ip now
  = (<[Js.or_else ip "unknown" :=
         {| count := 1; resetTime := now + windowMs |}]> clients, Next tt).
Proof.
  intros H Hlt. unfold createRateLimiter. rewrite H.
  now rewrite (proj2 (Z.ltb_lt _ _) Hlt).
Qed.

Lemma limiter_counts (clients : gmap string Client) (ip : option string)
    (now : Z) (c : Client) :
  clients !! Js.or_else ip "unknown" = Some c ->
  now <= resetTime c ->
  count c < maxRequests ->
  createRateLimiter maxRequests windowMs clients ip now
  = (<[Js.or_else ip "unknown" :=
         {| count := count c + 1; resetTime := resetTime c |}]> clients,
     Next tt).
Proof.
  intros H Hle Hlt. unfold createRateLimiter. rewrite H.
  rewrite (proj2 (Z.ltb_ge _ _) Hle).
  now rewrite (proj2 (Z.leb_gt _ _) Hlt).
Qed.

Lemma limiter_rejects (clients : gmap string Client) (ip : option string)
    (now : Z) (c : Client) :
  clients !! Js.or_else ip "unknown" = Some c ->
  now <= resetTime c ->
  maxRequests <= count c ->
  createRateLimiter maxRequests windowMs clients ip now
  = (clients,
     Respond (tooManyRequests (Js.ceil_div (resetTime c - now) 1000))).
Proof.
  intros H Hle Hge. unfold createRateLimiter. rewrite H.
  rewrite (proj2 (Z.ltb_ge _ _) Hle).
  now rewrite (proj2 (Z.leb_le _ _) Hge).
Qed.

Lemma limiter_other_client (clients : gmap string Client)
    (ip : option string) (now : Z) (other : string) :
  other <> Js.or_else ip "unknown" ->
  (createRateLimiter maxRequests windowMs clients ip now).1 !! other
  = clients !! other.
Proof.
  intros Hne. unfold createRateLimiter.
  destruct (clients !! Js.or_else ip "unknown") as [c|]; simpl.
  - destruct (Z.ltb (resetTime c) now); simpl.
    + now rewrite lookup_insert_ne.
    + destruct (Z.leb maxRequests (count c)); simpl; [reflexivity|].
      now rewrite lookup_insert_ne.
  - now rewrite lookup_insert_ne.
Qed.

End RateLimiter.

Section AuthRateLimit.

Import Middleware.

Lemma authRateLimit_eq :
  authRateLimit = createRateLimiter 5 900000.
Proof. reflexivity. Qed.

Lemma authRateLimit_opens_window (clients : gmap string Client)
    (ip : option string) (now : Z) :
  (clients !! Js.or_else ip "unknown" = None
   \/ exists c, clients !! Js.or_else ip "unknown" = Some c
                /\ resetTime c < now) ->
  authRateLimit clients ip now
  = (<[Js.or_else ip "unknown" :=
         {| count := 1; resetTime := now + 900000 |}]> clients, Next tt).
Proof.
  rewrite authRateLimit_eq. intros [Hnone | (c & Hc & Hlt)].
  - now apply limiter_first.
  - now apply limiter_elapsed with c.
Qed.

Ltac count_one ip :=
  rewrite (limiter_counts 5 900000 _ ip _
             {| count := _; resetTime := _ |})
    by first [apply lookup_insert_eq | simpl; lia];
  rewrite insert_insert_eq; simpl Z.add.

(** C4. The limiter of the credential routes, five requests per 900000 ms,
    for one client: a request that finds no window, or one whose reset
    time has passed, opens a window with count 1 and passes; the next four
    requests up to the reset time pass and are counted; the sixth is
    answered 429 with [retryAfter] the time left in the window in seconds,
    rounded up, which is positive whenever the request comes before the
    reset time; the first request after the reset time opens a new window
    with count 1 and passes; and the requests of other clients leave this
    client's window as it is. *)
Theorem authRateLimit_fixed_window (clients : gmap string Client)
    (ip : option string) (t0 t1 t2 t3 t4 t5 t6 : Z) :
  let id := Js.or_else ip "unknown" in
  let reset := t0 + 900000 in
  let retry := Js.ceil_div (reset - t5) 1000 in
  (clients !! id = None
   \/ exists c, clients !! id = Some c /\ resetTime c < t0) ->
  t1 <= reset -> t2 <= reset -> t3 <= reset -> t4 <= reset -> t5 <= reset ->
  reset < t6 ->
  authRateLimit clients ip t0
  = (<[id := {| count := 1; resetTime := reset |}]> clients, Next tt)
  /\ serve authRateLimit clients
       [(ip, t0); (ip, t1); (ip, t2); (ip, t3); (ip, t4); (ip, t5)]
     = (<[id := {| count := 5; resetTime := reset |}]> clients,
        [Next tt; Next tt; Next tt; Next tt; Next tt;
         Respond (tooManyRequests retry)])
  /\ status (tooManyRequests retry) = 429
  /\ 0 <= retry
  /\ (t5 < reset -> 0 < retry)
  /\ 1000 * (retry - 1) < reset - t5 <= 1000 * retry
  /\ authRateLimit (<[id := {| count := 5; resetTime := reset |}]> clients)
       ip t6
     = (<[id := {| count := 1; resetTime := t6 + 900000 |}]> clients, Next tt)
  /\ (forall any other now,
        Js.or_else other "unknown" <> id ->
        (authRateLimit any other now).1 !! id = any !! id).
Proof.
  intros id reset retry Hopen H1 H2 H3 H4 H5 H6.
  pose proof (authRateLimit_opens_window clients ip t0 Hopen) as Hfirst.
  fold id reset in Hfirst.
  repeat split.
  - exact Hfirst.
  - rewrite authRateLimit_eq in Hfirst |- *.
    unfold serve. rewrite Hfirst. subst id.
    do 4 count_one ip.
    rewrite (limiter_rejects 5 900000 _ ip t5
               {| count := 5; resetTime := reset |})
      by first [apply lookup_insert_eq | simpl; lia].
    reflexivity.
  - apply ceil_div_nonneg. lia.
  - intros Hlt. apply ceil_div_pos. lia.
  - apply ceil_div_bounds.
  - apply ceil_div_bounds.
  - rewrite authRateLimit_eq. subst id.
    rewrite (limiter_elapsed 5 900000 _ ip t6
               {| count := 5; resetTime := reset |})
      by first [apply lookup_insert_eq | simpl; lia].
    now rewrite insert_insert_eq.
  - intros any other now Hne. rewrite authRateLimit_eq.
    apply limiter_other_client. congruence.
Qed.

End AuthRateLimit.

(** C4, for a client never seen before: five requests in the first minute
    pass, the sixth after ten minutes is told to retry in 300 seconds, and
    a request after 15 minutes and 1 ms passes again. *)
Lemma authRateLimit_fixed_window_witness :
  (Middleware.serve Middleware.authRateLimit Middleware.noClients
     [(Some "10.0.0.1", 0); (Some "10.0.0.1", 10); (Some "10.0.0.1", 20);
      (Some "10.0.0.1", 30); (Some "10.0.0.1", 40);
      (Some "10.0.0.1", 600000)]).2
  = [Next tt; Next tt; Next tt; Next tt; Next tt;
     Respond (Middleware.tooManyRequests 300)].
Proof.
  pose proof (authRateLimit_fixed_window Middleware.noClients
                (Some "10.0.0.1") 0 10 20 30 40 600000 900001
                (or_introl eq_refl)
                ltac:(vm_compute; discriminate) ltac:(vm_compute; discriminate)
                ltac:(vm_compute; discriminate) ltac:(vm_compute; discriminate)
                ltac:(vm_compute; discriminate) eq_refl) as H.
  destruct H as (_ & Hserve & _).
  rewrite Hserve. reflexivity.
Defined.

(** C4 as the design document words it fails at the reset instant itself:
    a sixth request arriving exactly when the window ends is still inside
    the window for the limiter, and the 429 carries [retryAfter = 0]. *)
Lemma authRateLimit_retryAfter_zero_at_reset_instant :
  exists r,
    (Middleware.serve Middleware.authRateLimit Middleware.noClients
       [(Some "10.0.0.1", 0); (Some "10.0.0.1", 1); (Some "10.0.0.1", 2);
        (Some "10.0.0.1", 3); (Some "10.0.0.1", 4);
        (Some "10.0.0.1", 900000)]).2
    = [Next tt; Next tt; Next tt; Next tt; Next tt; Respond r]
    /\ status r = 429
    /\ retryAfter r = Some 0
    /\ ~ (exists n, retryAfter r = Some n /\ 0 < n).
Proof.
  exists (Middleware.tooManyRequests 0). repeat split.
  intros (n & Hn & Hpos). injection Hn as <-. lia.
Qed.

(** ** The store *)

Lemma save_In (d u : IUser) (st : Store.t) :
  In d (Store.save u st) -> d = u \/ (In d st /\ _id d <> _id u).
Proof.
  unfold Store.save. rewrite in_map_iff. intros (d0 & Hd & Hin).
  destruct (String.eqb_spec (_id d0) (_id u)) as [Heq|Hne].
  - left. congruence.
  - right. subst d. now split.
Qed.

Lemma In_save (u0 u : IUser) (st : Store.t) :
  In u0 st -> _id u0 = _id u -> In u (Store.save u st).
Proof.
  intros Hin Hid. unfold Store.save. apply in_map_iff. exists u0.
  split; [|exact Hin]. now rewrite Hid, String.eqb_refl.
Qed.

Lemma find_none_Forall {A : Type} (q : A -> bool) (l : list A) :
  List.find q l = None <-> List.Forall (fun d => q d = false) l.
Proof.
  split.
  - intros H. apply List.Forall_forall. intros d Hd.
    exact (List.find_none q l H d Hd).
  - induction 1 as [|d l Hd _ IH]; simpl; [reflexivity | now rewrite Hd].
Qed.

Lemma find_some_exists {A : Type} (q : A -> bool) (l : list A) (x : A) :
  In x l -> q x = true -> exists y, List.find q l = Some y.
Proof.
  intros Hin Hq. destruct (List.find q l) as [y|] eqn:E; [eauto|].
  pose proof (List.find_none q l E x Hin). congruence.
Qed.

(** ** Single-use tokens *)

Section SingleUseTokens.

Import AuthController.

Variable sha256 : string -> string.
Variable hashPassword : string -> string.

Lemma liveTokenQuery_true (k : TokenKind) (hashed : string) (now : Z)
    (d : IUser) :
  liveTokenQuery k hashed now d = true
  <-> storedHash k d = Some hashed
      /\ exists x, storedExpires k d = Some x /\ now < x.
Proof.
  unfold liveTokenQuery. rewrite andb_true_iff, bool_decide_eq_true.
  split; intros [Hh Hx]; split; try exact Hh.
  - destruct (storedExpires k d) as [x|]; [|discriminate].
    exists x. split; [reflexivity | now apply Z.ltb_lt].
  - destruct Hx as (x & -> & Hlt). now apply Z.ltb_lt.
Qed.

Lemma liveTokenQuery_false (k : TokenKind) (hashed : string) (now : Z)
    (d : IUser) :
  liveTokenQuery k hashed now d = false <-> Spec.noLiveToken k hashed now d.
Proof.
  unfold Spec.noLiveToken. split.
  - intros Hq.
    destruct (storedHash k d) as [h|] eqn:Hh; [|now left].
    destruct (decide (h = hashed)) as [->|Hne]; [|right; left; eauto].
    right; right. intros x Hx.
    destruct (Z.le_gt_cases x now) as [|Hlt]; [assumption|].
    assert (liveTokenQuery k hashed now d = true) as Ht
      by (apply liveTokenQuery_true; eauto).
    congruence.
  - intros Hno. apply not_true_is_false. intros Ht.
    apply liveTokenQuery_true in Ht as (Hh & x & Hx & Hlt).
    destruct Hno as [Hn | [(h & Hh' & Hne) | Hexp]].
    + congruence.
    + congruence.
    + specialize (Hexp x Hx). lia.
Qed.

Lemma no_live_token_found (k : TokenKind) (hashed : string) (now : Z)
    (st : Store.t) :
  List.Forall (Spec.noLiveToken k hashed now) st ->
  Store.findOne (liveTokenQuery k hashed now) st = None.
Proof.
  intros H. apply find_none_Forall.
  eapply List.Forall_impl; [|exact H].
  intros d. apply liveTokenQuery_false.
Qed.

Lemma live_token_found (k : TokenKind) (hashed : string) (now : Z)
    (st : Store.t) (u : IUser) :
  Store.findOne (liveTokenQuery k hashed now) st = Some u ->
  In u st /\ storedHash k u = Some hashed
  /\ exists x, storedExpires k u = Some x /\ now < x.
Proof.
  intros H. apply List.find_some in H as [Hin Hq].
  split; [exact Hin|]. now apply liveTokenQuery_true.
Qed.

Lemma verifyEmail_success_inv (st : Store.t) (now : Z) (q : QueryValue) :
  status (verifyEmail sha256 st now q).2 = 200 ->
  exists t u, q = QString t /\ In u st
    /\ emailVerificationToken u = Some (sha256 t)
    /\ exists x, emailVerificationExpires u = Some x /\ now < x.
Proof.
  intros Hs. unfold verifyEmail in Hs.
  destruct q as [|t|]; try discriminate.
  destruct (Js.falsy (Some t)); [discriminate|].
  destruct (Store.findOne _ st) as [u|] eqn:Hf; [|discriminate].
  apply live_token_found in Hf as (Hin & Hh & Hx).
  exists t, u. auto.
Qed.

Lemma verifyEmail_accepts (st : Store.t) (now : Z) (t : string) (u : IUser)
    (x : Z) :
  t <> "" -> In u st ->
  emailVerificationToken u = Some (sha256 t) ->
  emailVerificationExpires u = Some x -> now < x ->
  status (verifyEmail sha256 st now (QString t)).2 = 200.
Proof.
  intros Hne Hin Hh Hx Hlt. unfold verifyEmail.
  rewrite (proj2 (falsy_Some t) Hne).
  destruct (find_some_exists
              (liveTokenQuery EmailVerification (sha256 t) now) st u Hin)
    as [y Hy]; [apply liveTokenQuery_true; eauto|].
  unfold Store.findOne. now rewrite Hy.
Qed.

Lemma verifyEmail_rejects (st : Store.t) (now : Z) (t : string) :
  t <> "" ->
  List.Forall (Spec.noLiveToken EmailVerification (sha256 t) now) st ->
  verifyEmail sha256 st now (QString t)
  = (st, failure 400 "Invalid or expired verification token.").
Proof.
  intros Hne Hall. unfold verifyEmail.
  rewrite (proj2 (falsy_Some t) Hne).
  now rewrite (no_live_token_found _ _ _ _ Hall).
Qed.

Lemma resetPassword_success_inv (st : Store.t) (now : Z)
    (token newPassword : option string) :
  status (resetPassword sha256 hashPassword st now token newPassword).2 = 200 ->
  exists t u, token = Some t /\ In u st
    /\ passwordResetToken u = Some (sha256 t)
    /\ exists x, passwordResetExpires u = Some x /\ now < x.
Proof.
  intros Hs. unfold resetPassword in Hs.
  destruct token as [t|]; [|discriminate].
  destruct (Js.falsy (Some t) || Js.falsy newPassword); [discriminate|].
  destruct (Nat.ltb _ 8); [discriminate|].
  destruct (Store.findOne _ st) as [u|] eqn:Hf; [|discriminate].
  apply live_token_found in Hf as (Hin & Hh & Hx).
  exists t, u. auto.
Qed.

Lemma resetPassword_accepts (st : Store.t) (now : Z) (t pw : string)
    (u : IUser) (x : Z) :
  t <> "" -> (8 <= Js.length pw)%nat -> In u st ->
  passwordResetToken u = Some (sha256 t) ->
  passwordResetExpires u = Some x -> now < x ->
  status (resetPassword sha256 hashPassword st now (Some t) (Some pw)).2 = 200.
Proof.
  intros Hne Hlen Hin Hh Hx Hlt. unfold resetPassword.
  assert (pw <> "") as Hpw by (intros ->; simpl in Hlen; lia).
  rewrite (proj2 (falsy_Some t) Hne), (proj2 (falsy_Some pw) Hpw).
  simpl. rewrite (proj2 (Nat.ltb_ge _ _) Hlen).
  destruct (find_some_exists
              (liveTokenQuery PasswordReset (sha256 t) now) st u Hin)
    as [y Hy]; [apply liveTokenQuery_true; eauto|].
  unfold Store.findOne. now rewrite Hy.
Qed.

Lemma resetPassword_rejects (st : Store.t) (now : Z) (t pw : string) :
  t <> "" -> (8 <= Js.length pw)%nat ->
  List.Forall (Spec.noLiveToken PasswordReset (sha256 t) now) st ->
  resetPassword sha256 hashPassword st now (Some t) (Some pw)
  = (st, failure 400 "Invalid or expired reset token.").
Proof.
  intros Hne Hlen Hall. unfold resetPassword.
  assert (pw <> "") as Hpw by (intros ->; simpl in Hlen; lia).
  rewrite (proj2 (falsy_Some t) Hne), (proj2 (falsy_Some pw) Hpw).
  simpl. rewrite (proj2 (Nat.ltb_ge _ _) Hlen).
  now rewrite (no_live_token_found _ _ _ _ Hall).
Qed.

Lemma verifyEmail_failure_uniform (st1 st2 : Store.t) (now1 now2 : Z)
    (q : QueryValue) :
  status (verifyEmail sha256 st1 now1 q).2 <> 200 ->
  status (verifyEmail sha256 st2 now2 q).2 <> 200 ->
  verifyEmail sha256 st1 now1 q = (st1, (verifyEmail sha256 st2 now2 q).2)
  /\ status (verifyEmail sha256 st1 now1 q).2 = 400.
Proof.
  unfold verifyEmail. destruct q as [|t|]; try (intros _ _; now split).
  destruct (Js.falsy (Some t)); [intros _ _; now split|].
  destruct (Store.findOne _ st1); [intros H; now destruct H|].
  destruct (Store.findOne _ st2); [intros _ H; now destruct H|].
  intros _ _; now split.
Qed.

Lemma resetPassword_failure_uniform (st1 st2 : Store.t) (now1 now2 : Z)
    (token newPassword : option string) :
  status (resetPassword sha256 hashPassword st1 now1 token newPassword).2
  <> 200 ->
  status (resetPassword sha256 hashPassword st2 now2 token newPassword).2
  <> 200 ->
  resetPassword sha256 hashPassword st1 now1 token newPassword
  = (st1, (resetPassword sha256 hashPassword st2 now2 token newPassword).2)
  /\ status (resetPassword sha256 hashPassword st1 now1 token newPassword).2
     = 400.
Proof.
  unfold resetPassword.
  destruct (Js.falsy token || Js.falsy newPassword); [intros _ _; now split|].
  destruct (Nat.ltb _ 8); [intros _ _; now split|].
  destruct (Store.findOne _ st1); [intros H; now destruct H|].
  destruct (Store.findOne _ st2); [intros _ H; now destruct H|].
  intros _ _; now split.
Qed.

(** C1. [GET /verify-email] and [POST /reset-password] answer 200 only if
    some identity stores the SHA-256 digest of the presented value for that
    kind together with an expiry strictly after the current time, and for a
    well-formed request (a non-empty token and, for a reset, a new password
    of at least 8 characters) they do answer 200 then. When every identity
    fails that test, whether because it stores no hash, another hash, or an
    expiry that is not in the future, the answer to a well-formed request is
    the one fixed 400 response of the operation and the store is unchanged.
    For any request at all, two failing presentations of the same request
    get the same 400 response whatever the stores and the times are, so the
    response does not tell the cause. *)
Theorem single_use_token_fails_closed (st : Store.t) (now : Z) :
  (forall q,
      status (verifyEmail sha256 st now q).2 = 200 ->
      exists t u, q = QString t /\ In u st
        /\ emailVerificationToken u = Some (sha256 t)
        /\ exists x, emailVerificationExpires u = Some x /\ now < x)
  /\ (forall t u x,
        t <> "" -> In u st ->
        emailVerificationToken u = Some (sha256 t) ->
        emailVerificationExpires u = Some x -> now < x ->
        status (verifyEmail sha256 st now (QString t)).2 = 200)
  /\ (forall t,
        t <> "" ->
        List.Forall (Spec.noLiveToken EmailVerification (sha256 t) now) st ->
        verifyEmail sha256 st now (QString t)
        = (st, failure 400 "Invalid or expired verification token."))
  /\ (forall q st2 now2,
        status (verifyEmail sha256 st now q).2 <> 200 ->
        status (verifyEmail sha256 st2 now2 q).2 <> 200 ->
        verifyEmail sha256 st now q = (st, (verifyEmail sha256 st2 now2 q).2)
        /\ status (verifyEmail sha256 st now q).2 = 400)
  /\ (forall token newPassword,
        status (resetPassword sha256 hashPassword st now token newPassword).2
        = 200 ->
        exists t u, token = Some t /\ In u st
          /\ passwordResetToken u = Some (sha256 t)
          /\ exists x, passwordResetExpires u = Some x /\ now < x)
  /\ (forall t pw u x,
        t <> "" -> (8 <= Js.length pw)%nat -> In u st ->
        passwordResetToken u = Some (sha256 t) ->
        passwordResetExpires u = Some x -> now < x ->
        status (resetPassword sha256 hashPassword st now (Some t) (Some pw)).2
        = 200)
  /\ (forall t pw,
        t <> "" -> (8 <= Js.length pw)%nat ->
        List.Forall (Spec.noLiveToken PasswordReset (sha256 t) now) st ->
        resetPassword sha256 hashPassword st now (Some t) (Some pw)
        = (st, failure 400 "Invalid or expired reset token."))
  /\ (forall token newPassword st2 now2,
        status (resetPassword sha256 hashPassword st now token newPassword).2
        <> 200 ->
        status (resetPassword sha256 hashPassword st2 now2 token newPassword).2
        <> 200 ->
        resetPassword sha256 hashPassword st now token newPassword
        = (st, (resetPassword sha256 hashPassword st2 now2 token
                  newPassword).2)
        /\ status (resetPassword sha256 hashPassword st now token
                     newPassword).2 = 400).
Proof.
  split; [apply verifyEmail_success_inv|].
  split; [apply verifyEmail_accepts|].
  split; [apply verifyEmail_rejects|].
  split; [intros q st2 now2; apply verifyEmail_failure_uniform|].
  split; [apply resetPassword_success_inv|].
  split; [apply resetPassword_accepts|].
  split; [apply resetPassword_rejects|].
  intros token newPassword st2 now2. apply resetPassword_failure_uniform.
Qed.

End SingleUseTokens.

(** C1, on a store that shows the three causes at once: at time 1000 the
    value ["v-token-9"] finds Alice with no verification hash, Bob with
    another hash, and Carol with its hash but an expiry in the past; and
    the value ["r-token-9"] finds Alice with another reset hash, Bob with
    none, and Carol with its hash but an expiry in the past. *)
Lemma single_use_token_fails_closed_witness :
  AuthController.verifyEmail Sample.sha256 Sample.users_pending 1000
    (AuthController.QString "v-token-9")
  = (Sample.users_pending, failure 400 "Invalid or expired verification token.")
  /\ AuthController.resetPassword Sample.sha256 Sample.hashPassword
       Sample.users_pending 1000 (Some "r-token-9") (Some "longenough2")
     = (Sample.users_pending, failure 400 "Invalid or expired reset token.").
Proof.
  destruct (single_use_token_fails_closed Sample.sha256 Sample.hashPassword
              Sample.users_pending 1000)
    as (_ & _ & Hverify & _ & _ & _ & Hreset & _).
  split.
  - apply Hverify; [discriminate|].
    apply List.Forall_cons; [left; reflexivity|].
    apply List.Forall_cons;
      [right; left; eexists; split; [reflexivity | discriminate]|].
    apply List.Forall_cons; [|apply List.Forall_nil].
    right; right. intros e [= <-]. lia.
  - apply Hreset; [discriminate | vm_compute; lia |].
    apply List.Forall_cons;
      [right; left; eexists; split; [reflexivity | discriminate]|].
    apply List.Forall_cons; [left; reflexivity|].
    apply List.Forall_cons; [|apply List.Forall_nil].
    right; right. intros e [= <-]. lia.
Defined.

(** The length of a password is counted in UTF-16 code units: seven
    characters outside ASCII, 21 bytes, are too short. *)
Example resetPassword_counts_code_units :
  Js.length "日本語のパスワ" = 7%nat
  /\ AuthController.resetPassword Sample.sha256 Sample.hashPassword
       Sample.users_pending 1000 (Some "r-token-1") (Some "日本語のパスワ")
     = (Sample.users_pending,
        failure 400 "Password must be at least 8 characters long.").
Proof. split; reflexivity. Qed.

Section Consumption.

Import AuthController.

Variable sha256 : string -> string.
Variable hashPassword : string -> string.

Lemma cleared_store_has_no_live_token (k : TokenKind) (hashed : string)
    (u u' : IUser) (st : Store.t) (later : Z) :
  _id u' = _id u ->
  storedHash k u' = None ->
  Spec.heldOnlyBy k hashed (_id u) st ->
  List.Forall (Spec.noLiveToken k hashed later) (Store.save u' st).
Proof.
  intros Hid Hnone Hheld. apply List.Forall_forall. intros d Hd.
  apply save_In in Hd as [-> | [Hin Hne]].
  - now left.
  - destruct (storedHash k d) as [h|] eqn:Hh; [|now left].
    right; left. exists h. split; [exact Hh|].
    intros ->. apply Hne. rewrite Hid. now apply Hheld.
Qed.

(** C2. Presented with a live token, [GET /verify-email] and
    [POST /reset-password] (with a new password of at least 8 characters)
    answer 200. A successful consume makes one [save()] of the matched
    identity, and the saved document carries the authorised change (email
    verified, or the new password) together with both token fields
    cleared. Every stored document of that identity is that one, so no
    digest matches it any more; a later presentation of the same value can
    succeed only against another identity that stores the same digest, and
    where the digest is held by the consuming identity alone the second
    presentation is answered with the 400 rejection. *)
Theorem single_use_token_consumed_at_most_once (st : Store.t) (now : Z)
    (t : string) :
  (status (verifyEmail sha256 st now (QString t)).2 = 200 ->
   exists u,
     Store.findOne (liveTokenQuery EmailVerification (sha256 t) now) st = Some u
     /\ let u' := set_emailVerification None None (set_isEmailVerified true u) in
        let st' := (verifyEmail sha256 st now (QString t)).1 in
        st' = Store.save u' st
        /\ In u' st'
        /\ isEmailVerified u' = true
        /\ emailVerificationToken u' = None
        /\ emailVerificationExpires u' = None
        /\ (forall d, In d st' -> _id d = _id u -> d = u')
        /\ (forall later,
              status (verifyEmail sha256 st' later (QString t)).2 = 200 ->
              exists d, In d st /\ _id d <> _id u
                        /\ emailVerificationToken d = Some (sha256 t))
        /\ (Spec.heldOnlyBy EmailVerification (sha256 t) (_id u) st ->
            forall later,
              verifyEmail sha256 st' later (QString t)
              = (st', failure 400 "Invalid or expired verification token.")))
  /\ (forall pw,
      status (resetPassword sha256 hashPassword st now (Some t) (Some pw)).2
      = 200 ->
      exists u,
        Store.findOne (liveTokenQuery PasswordReset (sha256 t) now) st = Some u
        /\ let u' := set_passwordReset None None
                       (set_password (hashPassword pw) u) in
           let st' :=
             (resetPassword sha256 hashPassword st now (Some t) (Some pw)).1 in
           st' = Store.save u' st
           /\ In u' st'
           /\ password u' = hashPassword pw
           /\ passwordResetToken u' = None
           /\ passwordResetExpires u' = None
           /\ (forall d, In d st' -> _id d = _id u -> d = u')
           /\ (forall later pw2,
                 status (resetPassword sha256 hashPassword st' later
                           (Some t) (Some pw2)).2 = 200 ->
                 exists d, In d st /\ _id d <> _id u
                           /\ passwordResetToken d = Some (sha256 t))
           /\ (Spec.heldOnlyBy PasswordReset (sha256 t) (_id u) st ->
               forall later pw2,
                 (8 <= Js.length pw2)%nat ->
                 resetPassword sha256 hashPassword st' later
                   (Some t) (Some pw2)
                 = (st', failure 400 "Invalid or expired reset token.")))
  /\ (forall u,
        t <> "" ->
        Store.findOne (liveTokenQuery EmailVerification (sha256 t) now) st
        = Some u ->
        status (verifyEmail sha256 st now (QString t)).2 = 200)
  /\ (forall pw u,
        t <> "" -> (8 <= Js.length pw)%nat ->
        Store.findOne (liveTokenQuery PasswordReset (sha256 t) now) st
        = Some u ->
        status (resetPassword sha256 hashPassword st now (Some t) (Some pw)).2
        = 200).
Proof.
  split; [|split; [|split]].
  - intros Hs. unfold verifyEmail in Hs |- *.
    destruct (Js.falsy (Some t)) eqn:Hfalsy; [discriminate|].
    destruct (Store.findOne _ st) as [u|] eqn:Hf; [|discriminate].
    exists u. split; [reflexivity|]. cbn zeta. cbn [fst].
    set (u' := set_emailVerification None None (set_isEmailVerified true u)).
    pose proof (live_token_found _ _ _ _ _ Hf) as (Hin & _).
    assert (Hown : forall d, In d (Store.save u' st) -> _id d = _id u -> d = u').
    { intros d Hd Hid. apply save_In in Hd as [?|[_ Hne]]; [assumption|].
      now destruct Hne. }
    repeat split; try reflexivity.
    + now apply (In_save u).
    + exact Hown.
    + intros later Hs2.
      destruct (Store.findOne _ (Store.save u' st)) as [d|] eqn:Hf2;
        [|discriminate].
      apply live_token_found in Hf2 as (Hd & Hh & _).
      apply save_In in Hd as [-> | [Hd Hne]]; [discriminate|].
      exists d. auto.
    + intros Hheld later.
      rewrite (no_live_token_found EmailVerification (sha256 t) later
                 (Store.save u' st)); [reflexivity|].
      now apply cleared_store_has_no_live_token with u.
  - intros pw Hs. unfold resetPassword in Hs |- *.
    destruct (Js.falsy (Some t) || Js.falsy (Some pw)) eqn:Hfalsy;
      [discriminate|].
    destruct (Nat.ltb _ 8); [discriminate|].
    destruct (Store.findOne _ st) as [u|] eqn:Hf; [|discriminate].
    exists u. split; [reflexivity|]. cbn zeta. cbn [fst].
    set (u' := set_passwordReset None None
                 (set_password (hashPassword (default "" (Some pw))) u)).
    pose proof (live_token_found _ _ _ _ _ Hf) as (Hin & _).
    apply orb_false_iff in Hfalsy as [Ht _].
    repeat split; try reflexivity.
    + now apply (In_save u).
    + intros d Hd Hid. apply save_In in Hd as [?|[_ Hne]]; [assumption|].
      now destruct Hne.
    + intros later pw2 Hs2.
      destruct (Js.falsy (Some t) || Js.falsy (Some pw2)); [discriminate|].
      destruct (Nat.ltb _ 8); [discriminate|].
      destruct (Store.findOne _ (Store.save u' st)) as [d|] eqn:Hf2;
        [|discriminate].
      apply live_token_found in Hf2 as (Hd & Hh & _).
      apply save_In in Hd as [-> | [Hd Hne]]; [discriminate|].
      exists d. auto.
    + intros Hheld later pw2 Hlen.
      assert (pw2 <> "") as Hpw by (intros ->; simpl in Hlen; lia).
      rewrite Ht, (proj2 (falsy_Some pw2) Hpw). simpl.
      rewrite (proj2 (Nat.ltb_ge _ _) Hlen).
      rewrite (no_live_token_found PasswordReset (sha256 t) later
                 (Store.save u' st)); [reflexivity|].
      now apply cleared_store_has_no_live_token with u.
  - intros u Ht Hf. unfold verifyEmail.
    rewrite (proj2 (falsy_Some t) Ht). now rewrite Hf.
  - intros pw u Ht Hlen Hf. unfold resetPassword.
    assert (pw <> "") as Hpw by (intros ->; simpl in Hlen; lia).
    rewrite (proj2 (falsy_Some t) Ht), (proj2 (falsy_Some pw) Hpw).
    cbn [orb]. change (default "" (Some pw)) with pw.
    change (default "" (Some t)) with t.
    rewrite (proj2 (Nat.ltb_ge _ _) Hlen). cbv zeta. now rewrite Hf.
Qed.

End Consumption.

(** C2, on the sample deployment: Bob verifies his email with
    ["v-token-1"], and the same value presented again is turned down;
    Alice resets her password with ["r-token-1"], her document then holds
    the new password and no reset token, and the same value presented
    again is turned down. *)
Lemma single_use_token_consumed_at_most_once_witness :
  (let st' := (AuthController.verifyEmail Sample.sha256 Sample.users_pending
                 1000 (AuthController.QString "v-token-1")).1 in
   AuthController.verifyEmail Sample.sha256 st' 2000
     (AuthController.QString "v-token-1")
   = (st', failure 400 "Invalid or expired verification token."))
  /\ (let reset := AuthController.resetPassword Sample.sha256
                     Sample.hashPassword Sample.users_pending 1000
                     (Some "r-token-1") (Some "brandnewpass") in
      status reset.2 = 200
      /\ In (set_passwordReset None None
               (set_password (Sample.hashPassword "brandnewpass")
                  Sample.alice_resetting)) reset.1
      /\ AuthController.resetPassword Sample.sha256 Sample.hashPassword
           reset.1 2000 (Some "r-token-1") (Some "anotherpass1")
         = (reset.1, failure 400 "Invalid or expired reset token.")).
Proof.
  split.
  - destruct (proj1 (single_use_token_consumed_at_most_once Sample.sha256
                       Sample.hashPassword Sample.users_pending 1000
                       "v-token-1") eq_refl) as (u & Hf & H).
    vm_compute in Hf. injection Hf as <-.
    destruct H as (_ & _ & _ & _ & _ & _ & _ & Hreject).
    apply Hreject.
    intros d Hin Hh. simpl in Hin.
    destruct Hin as [<- | [<- | [<- | []]]]; try reflexivity; discriminate.
  - destruct (single_use_token_consumed_at_most_once Sample.sha256
                Sample.hashPassword Sample.users_pending 1000 "r-token-1")
      as (_ & Hreset & _ & Haccept).
    pose proof (Haccept "brandnewpass" Sample.alice_resetting
                  ltac:(discriminate) ltac:(vm_compute; lia) eq_refl)
      as Hok.
    destruct (Hreset "brandnewpass" Hok) as (u & Hf & H).
    vm_compute in Hf. injection Hf as <-.
    destruct H as (_ & Hin & _ & _ & _ & _ & _ & Hreject).
    split; [exact Hok|]. split; [exact Hin|].
    apply Hreject; [|vm_compute; lia].
    intros d Hd Hh. simpl in Hd.
    destruct Hd as [<- | [<- | [<- | []]]]; try reflexivity; discriminate.
Defined.

Section Issuing.

Import AuthController.

Variable sha256 : string -> string.
Variable toLowerCase : string -> string.
Variable hashPassword : string -> string.

Lemma reissued_store_rejects_old (k : TokenKind) (old new : string)
    (user user' : IUser) (st : Store.t) (later : Z) :
  _id user' = _id user ->
  storedHash k user' = Some (sha256 new) ->
  sha256 old <> sha256 new ->
  Spec.heldOnlyBy k (sha256 old) (_id user) st ->
  List.Forall (Spec.noLiveToken k (sha256 old) later) (Store.save user' st).
Proof.
  intros Hid Hnew Hdiff Hheld. apply List.Forall_forall. intros d Hd.
  apply save_In in Hd as [-> | [Hin Hne]].
  - right; left. exists (sha256 new). split; [exact Hnew | congruence].
  - destruct (storedHash k d) as [h|] eqn:Hh; [|now left].
    right; left. exists h. split; [exact Hh|].
    intros ->. apply Hne. rewrite Hid. now apply Hheld.
Qed.

Lemma byEmail_found (em : string) (st : Store.t) (user : IUser) :
  Store.findOne (byEmail toLowerCase em) st = Some user -> In user st.
Proof. intros H. now apply List.find_some in H. Qed.

(** C9. Issuing writes the one hash-and-expiry pair the identity has for
    the kind, whatever it held before. After [POST /resend-verification]
    or [POST /forgot-password] has issued the value [new] to an identity, a
    previously issued value [old] with another digest, held by no other
    identity, is answered with the 400 rejection at any later time, while
    [new] is accepted until its window ends. *)
Theorem reissue_invalidates_previous_token (st : Store.t) (now : Z)
    (em old new : string) (user : IUser) (sent : bool) (uuid : string) :
  em <> "" -> old <> "" -> new <> "" ->
  Store.findOne (byEmail toLowerCase em) st = Some user ->
  sha256 old <> sha256 new ->
  (forall k u,
      (generateToken sha256 k new now u).1 = new
      /\ storedHash k (generateToken sha256 k new now u).2 = Some (sha256 new)
      /\ storedExpires k (generateToken sha256 k new now u).2
         = Some (now + window k)
      /\ _id (generateToken sha256 k new now u).2 = _id u)
  /\ (isEmailVerified user = false ->
      Spec.heldOnlyBy EmailVerification (sha256 old) (_id user) st ->
      let st' := (resendVerification sha256 toLowerCase st now (Some em) new
                    sent uuid).1 in
      (forall later,
          verifyEmail sha256 st' later (QString old)
          = (st', failure 400 "Invalid or expired verification token."))
      /\ (forall later,
            later < now + window EmailVerification ->
            status (verifyEmail sha256 st' later (QString new)).2 = 200))
  /\ (Spec.heldOnlyBy PasswordReset (sha256 old) (_id user) st ->
      let st' := (forgotPassword sha256 toLowerCase st now (Some em) new
                    sent uuid).1 in
      (forall later pw,
          (8 <= Js.length pw)%nat ->
          resetPassword sha256 hashPassword st' later (Some old) (Some pw)
          = (st', failure 400 "Invalid or expired reset token."))
      /\ (forall later pw,
            (8 <= Js.length pw)%nat ->
            later < now + window PasswordReset ->
            status (resetPassword sha256 hashPassword st' later
                      (Some new) (Some pw)).2 = 200)).
Proof.
  intros Hem Hold Hnew Hfind Hdiff.
  pose proof (byEmail_found em st user Hfind) as Hin.
  split; [|split].
  - intros k u. destruct k; repeat split.
  - intros Hunverified Hheld.
    set (user' := (generateToken sha256 EmailVerification new now user).2).
    assert (Hst : (resendVerification sha256 toLowerCase st now (Some em) new
                     sent uuid).1 = Store.save user' st).
    { unfold resendVerification.
      rewrite (proj2 (falsy_Some em) Hem). simpl default.
      rewrite Hfind, Hunverified. simpl. now destruct sent. }
    cbn zeta. rewrite Hst. split.
    + intros later.
      apply verifyEmail_rejects; [exact Hold|].
      now apply reissued_store_rejects_old with new user.
    + intros later Hlive.
      apply (verifyEmail_accepts sha256 (Store.save user' st) later new
               user' (now + window EmailVerification));
        try reflexivity; try assumption.
      now apply (In_save user).
  - intros Hheld.
    set (user' := (generateToken sha256 PasswordReset new now user).2).
    assert (Hst : (forgotPassword sha256 toLowerCase st now (Some em) new
                     sent uuid).1 = Store.save user' st).
    { unfold forgotPassword.
      rewrite (proj2 (falsy_Some em) Hem). simpl default.
      rewrite Hfind. simpl. now destruct sent. }
    cbn zeta. rewrite Hst. split.
    + intros later pw Hlen.
      apply resetPassword_rejects; [exact Hold | exact Hlen |].
      now apply reissued_store_rejects_old with new user.
    + intros later pw Hlen Hlive.
      apply (resetPassword_accepts sha256 hashPassword (Store.save user' st)
               later new pw user' (now + window PasswordReset));
        try reflexivity; try assumption.
      now apply (In_save user).
Qed.

End Issuing.

(** C9, on the sample deployment: Bob asks for a new verification mail and
    is issued ["v-token-2"]; the earlier ["v-token-1"] no longer works.
    Alice asks for a new reset mail and is issued ["r-token-2"]; the
    earlier ["r-token-1"] no longer works and the new one does. *)
Lemma reissue_invalidates_previous_token_witness :
  (let st' := (AuthController.resendVerification Sample.sha256
                 Sample.toLowerCase Sample.users_pending 5000
                 (Some "Bob@X.com") "v-token-2" true "e-1").1 in
   AuthController.verifyEmail Sample.sha256 st' 6000
     (AuthController.QString "v-token-1")
   = (st', failure 400 "Invalid or expired verification token."))
  /\ (let st' := (AuthController.forgotPassword Sample.sha256
                    Sample.toLowerCase Sample.users_pending 5000
                    (Some "alice@x.com") "r-token-2" true "e-1").1 in
      AuthController.resetPassword Sample.sha256 Sample.hashPassword st' 6000
        (Some "r-token-1") (Some "brandnewpass")
      = (st', failure 400 "Invalid or expired reset token.")
      /\ status (AuthController.resetPassword Sample.sha256
                   Sample.hashPassword st' 6000 (Some "r-token-2")
                   (Some "brandnewpass")).2 = 200).
Proof.
  split.
  - assert (Hverify :=
      proj1 (proj2
        (reissue_invalidates_previous_token Sample.sha256
           Sample.toLowerCase Sample.hashPassword Sample.users_pending
           5000 "Bob@X.com" "v-token-1" "v-token-2" Sample.bob_pending
           true "e-1" ltac:(discriminate) ltac:(discriminate)
           ltac:(discriminate) eq_refl ltac:(discriminate)))).
    apply Hverify; [reflexivity|].
    intros d Hin Hh. simpl in Hin.
    destruct Hin as [<- | [<- | [<- | []]]]; try reflexivity; discriminate.
  - assert (Hreset :=
      proj2 (proj2
        (reissue_invalidates_previous_token Sample.sha256
           Sample.toLowerCase Sample.hashPassword Sample.users_pending
           5000 "alice@x.com" "r-token-1" "r-token-2"
           Sample.alice_resetting true "e-1" ltac:(discriminate)
           ltac:(discriminate) ltac:(discriminate) eq_refl
           ltac:(discriminate)))).
    assert (Hheld : Spec.heldOnlyBy AuthController.PasswordReset
                      (Sample.sha256 "r-token-1") (_id Sample.alice_resetting)
                      Sample.users_pending).
    { intros d Hin Hh. simpl in Hin.
      destruct Hin as [<- | [<- | [<- | []]]]; try reflexivity; discriminate. }
    destruct (Hreset Hheld) as [Hold Hnew]. split.
    + apply Hold. vm_compute. lia.
    + apply Hnew; vm_compute; [lia | reflexivity].
Defined.

(** ** Login and password recovery *)

Section Credentials.

Import AuthController.

Variable sha256 : string -> string.
Variable toLowerCase : string -> string.
Variable comparePassword : string -> string -> bool.

(** C5. For an email no account has, and for the email of an active
    account with a password that does not match, [POST /login] gives the
    same answer: 401 with the message ["Invalid email or password."], the
    store left as it was. For the email of a deactivated account it
    answers 401 with the deactivation message whatever the password is,
    matching or not: the account is checked before the password. *)
Theorem login_failures_by_account_state (e : Jwt.Env) (st : Store.t)
    (now : Z) :
  (forall unknown pw,
      unknown <> "" -> pw <> "" ->
      Store.findOne (byEmail toLowerCase unknown) st = None ->
      login toLowerCase comparePassword e st now (Some unknown) (Some pw)
      = (st, failure 401 "Invalid email or password."))
  /\ (forall known pw user,
        known <> "" -> pw <> "" ->
        Store.findOne (byEmail toLowerCase known) st = Some user ->
        isActive user = true ->
        comparePassword pw (password user) = false ->
        login toLowerCase comparePassword e st now (Some known) (Some pw)
        = (st, failure 401 "Invalid email or password."))
  /\ (forall known pw user,
        known <> "" -> pw <> "" ->
        Store.findOne (byEmail toLowerCase known) st = Some user ->
        isActive user = false ->
        login toLowerCase comparePassword e st now (Some known) (Some pw)
        = (st, failure 401
                 "Account has been deactivated. Please contact support.")).
Proof.
  split; [|split].
  - intros unknown pw Hu Hp Hnone. unfold login.
    rewrite (proj2 (falsy_Some unknown) Hu), (proj2 (falsy_Some pw) Hp).
    cbn [orb]. change (default "" (Some unknown)) with unknown.
    now rewrite Hnone.
  - intros known pw user Hk Hp Hsome Hactive Hwrong. unfold login.
    rewrite (proj2 (falsy_Some known) Hk), (proj2 (falsy_Some pw) Hp).
    cbn [orb]. change (default "" (Some known)) with known.
    change (default "" (Some pw)) with pw.
    rewrite Hsome, Hactive. cbn [negb]. now rewrite Hwrong.
  - intros known pw user Hk Hp Hsome Hinactive. unfold login.
    rewrite (proj2 (falsy_Some known) Hk), (proj2 (falsy_Some pw) Hp).
    cbn [orb]. change (default "" (Some known)) with known.
    now rewrite Hsome, Hinactive.
Qed.

(** C6. [POST /forgot-password] for an email no account has answers 200
    with the message that is also sent when the account exists, and leaves
    the store as it was. *)
Theorem forgotPassword_unknown_email (st : Store.t) (now : Z)
    (em random : string) (sent : bool) (uuid : string) :
  em <> "" ->
  Store.findOne (byEmail toLowerCase em) st = None ->
  forgotPassword sha256 toLowerCase st now (Some em) random sent uuid
  = (st, resetLinkSent)
  /\ status resetLinkSent = 200
  /\ success resetLinkSent = true
  /\ message resetLinkSent
     = "If an account with this email exists, a password reset link has been sent.".
Proof.
  intros Hem Hnone. repeat split. unfold forgotPassword.
  rewrite (proj2 (falsy_Some em) Hem). simpl default. now rewrite Hnone.
Qed.

End Credentials.

(** C5, on the sample deployment: a login for an address nobody has and a
    login for Alice with a wrong password are answered alike; a login for
    Carol, whose account is deactivated, is answered with the deactivation
    message even with her own password. *)
Lemma login_failures_by_account_state_witness :
  AuthController.login Sample.toLowerCase Sample.comparePassword Sample.env
    Sample.users 1000 (Some "ghost@x.com") (Some "whatever1")
  = AuthController.login Sample.toLowerCase Sample.comparePassword Sample.env
      Sample.users 1000 (Some "alice@x.com") (Some "not-her-password")
  /\ AuthController.login Sample.toLowerCase Sample.comparePassword Sample.env
       Sample.users 1000 (Some "carol@x.com") (Some "correcthorse")
     = (Sample.users,
        failure 401 "Account has been deactivated. Please contact support.").
Proof.
  destruct (login_failures_by_account_state Sample.toLowerCase
              Sample.comparePassword Sample.env Sample.users 1000)
    as (Hunknown & Hwrong & Hinactive).
  split.
  - rewrite (Hunknown "ghost@x.com" "whatever1" ltac:(discriminate)
               ltac:(discriminate) eq_refl).
    now rewrite (Hwrong "alice@x.com" "not-her-password" Sample.alice
                   ltac:(discriminate) ltac:(discriminate) eq_refl eq_refl
                   eq_refl).
  - exact (Hinactive "carol@x.com" "correcthorse" Sample.carol
             ltac:(discriminate) ltac:(discriminate) eq_refl eq_refl).
Defined.

(** C5 as the design document words it fails for a deactivated account:
    Carol's address with a wrong password is answered with the deactivation
    message, not with the answer an unknown address gets, so the response
    tells that the account exists. *)
Lemma login_reveals_deactivated_account :
  Store.findOne (AuthController.byEmail Sample.toLowerCase "ghost@x.com")
    Sample.users = None
  /\ Store.findOne (AuthController.byEmail Sample.toLowerCase "carol@x.com")
       Sample.users = Some Sample.carol
  /\ Sample.comparePassword "not-her-password" (password Sample.carol) = false
  /\ AuthController.login Sample.toLowerCase Sample.comparePassword Sample.env
       Sample.users 1000 (Some "ghost@x.com") (Some "not-her-password")
     = (Sample.users, failure 401 "Invalid email or password.")
  /\ AuthController.login Sample.toLowerCase Sample.comparePassword Sample.env
       Sample.users 1000 (Some "carol@x.com") (Some "not-her-password")
     = (Sample.users,
        failure 401 "Account has been deactivated. Please contact support.")
  /\ AuthController.login Sample.toLowerCase Sample.comparePassword Sample.env
       Sample.users 1000 (Some "ghost@x.com") (Some "not-her-password")
     <> AuthController.login Sample.toLowerCase Sample.comparePassword
          Sample.env Sample.users 1000 (Some "carol@x.com")
          (Some "not-her-password").
Proof. repeat split. discriminate. Qed.

(** C6, on the sample deployment. *)
Lemma forgotPassword_unknown_email_witness :
  AuthController.forgotPassword Sample.sha256 Sample.toLowerCase Sample.users
    1000 (Some "ghost@x.com") "r-token-2" true "e-2"
  = (Sample.users, AuthController.resetLinkSent).
Proof.
  refine (proj1 (forgotPassword_unknown_email Sample.sha256 Sample.toLowerCase
                   Sample.users 1000 "ghost@x.com" "r-token-2" true "e-2"
                   _ eq_refl)).
  discriminate.
Defined.

(** A successful login of Alice, for comparison. *)
Example login_accepts_alice :
  status (AuthController.login Sample.toLowerCase Sample.comparePassword
            Sample.env Sample.users 1000 (Some "Alice@x.com")
            (Some "longenough1")).2 = 200.
Proof. reflexivity. Qed.

(** The end-to-end run of the design document on the sample deployment:
    the token issued to Bob verifies his email once, and only once. *)
Example verify_email_end_to_end :
  let first := AuthController.verifyEmail Sample.sha256 Sample.users_pending
                 1000 (AuthController.QString "v-token-1") in
  status first.2 = 200
  /\ status (AuthController.verifyEmail Sample.sha256 first.1 1001
               (AuthController.QString "v-token-1")).2 = 400.
Proof. split; reflexivity. Qed.

(** * Further properties *)

(** ** The other middlewares *)

Lemma extract_bearer (tok : string) :
  Jwt.extractTokenFromHeader (Some ("Bearer " +:+ tok)) = Some tok.
Proof.
  unfold Jwt.extractTokenFromHeader, Js.startsWith.
  replace (Js.falsy (Some ("Bearer " +:+ tok))) with false
    by (symmetry; now apply falsy_Some).
  rewrite prefix_append. simpl negb. cbv iota.
  f_equal. exact (substring_from_append "Bearer " tok).
Qed.

Lemma findById_save (u0 u : IUser) (st : Store.t) :
  In u0 st -> _id u0 = _id u ->
  Store.findById (Some (_id u)) (Store.save u st) = Some u.
Proof.
  unfold Store.findById, Store.findOne, Store.save.
  induction st as [|d st IH]; intros Hin Hid; [destruct Hin|].
  simpl. destruct (String.eqb_spec (_id d) (_id u)) as [Heq|Hne].
  - now rewrite String.eqb_refl.
  - rewrite (proj2 (String.eqb_neq _ _) Hne).
    destruct Hin as [-> | Hin]; [congruence | now apply IH].
Qed.

Section OtherMiddlewares.

Import Middleware.

Variable decode : string -> option Jwt.Token.

Lemma optionalAuth_Some (e : Jwt.Env) (st : Store.t) (now : Z)
    (authorization : option string) (user : IUserNoPassword) :
  optionalAuth decode e st now authorization = Next (Some user)
  <-> authenticate decode e st now authorization = Next user.
Proof.
  unfold optionalAuth, authenticate.
  destruct (Js.falsy _); [split; discriminate|].
  destruct (Jwt.verifyAccessToken _ _ _ _) as [payload|];
    [|split; discriminate].
  destruct (select_minus_password <$> Store.findById _ st) as [u|];
    [|split; discriminate].
  destruct (np_isActive u); simpl; split; congruence.
Qed.

Lemma optionalAuth_None (e : Jwt.Env) (st : Store.t) (now : Z)
    (authorization : option string) :
  optionalAuth decode e st now authorization = Next None
  <-> exists r, authenticate decode e st now authorization = Respond r.
Proof.
  unfold optionalAuth, authenticate.
  destruct (Js.falsy _); [split; eauto|].
  destruct (Jwt.verifyAccessToken _ _ _ _) as [payload|]; [|split; eauto].
  destruct (select_minus_password <$> Store.findById _ st) as [u|];
    [|split; eauto].
  destruct (np_isActive u); simpl; split; eauto; try discriminate.
  intros (r & Hr). discriminate.
Qed.

(** [optionalAuth] never answers the request itself: it always calls
    [next()], and it attaches a user exactly when [authenticate] would let
    the same request through with that user. *)
Theorem optionalAuth_attaches_what_authenticate_accepts (e : Jwt.Env)
    (st : Store.t) (now : Z) (authorization : option string) :
  (exists attached,
      optionalAuth decode e st now authorization = Next attached)
  /\ (forall user,
        optionalAuth decode e st now authorization = Next (Some user)
        <-> authenticate decode e st now authorization = Next user)
  /\ (optionalAuth decode e st now authorization = Next None
      <-> exists r, authenticate decode e st now authorization = Respond r).
Proof.
  split; [|split].
  - unfold optionalAuth.
    destruct (Js.falsy _); [eauto|].
    destruct (Jwt.verifyAccessToken _ _ _ _) as [payload|]; [|eauto].
    destruct (select_minus_password <$> Store.findById _ st) as [u|];
      [|eauto].
    destruct (np_isActive u); eauto.
  - intros user. apply optionalAuth_Some.
  - apply optionalAuth_None.
Qed.

(** [authorize] behind [optionalAuth]: the request passes exactly when
    [authenticate] accepts it and the role of the user is one of the roles
    listed; it is answered 401 when [authenticate] would reject it and 403
    when the role is not listed. With no role listed nobody passes. *)
Theorem authorize_after_optionalAuth (roles : list string) (e : Jwt.Env)
    (st : Store.t) (now : Z) (authorization : option string)
    (attached : option IUserNoPassword) :
  optionalAuth decode e st now authorization = Next attached ->
  (forall user,
      authorize roles attached = Next user
      <-> authenticate decode e st now authorization = Next user
          /\ In (role_string (np_role user)) roles)
  /\ ((exists r, authenticate decode e st now authorization = Respond r) ->
      authorize roles attached = Respond (failure 401 "Authentication required."))
  /\ (forall user,
        authenticate decode e st now authorization = Next user ->
        ~ In (role_string (np_role user)) roles ->
        authorize roles attached
        = Respond (failure 403
                     "Insufficient permissions to access this resource."))
  /\ (roles = [] -> forall user, authorize roles attached <> Next user).
Proof.
  intros Hopt.
  pose proof (optionalAuth_Some e st now authorization) as Hsome.
  pose proof (optionalAuth_None e st now authorization) as Hnone.
  assert (Hin : forall (r : string) (u : IUserNoPassword),
             existsb (String.eqb (role_string (np_role u))) roles = true
             <-> In (role_string (np_role u)) roles).
  { intros r u. rewrite existsb_exists. split.
    - intros (x & Hx & Heq). apply String.eqb_eq in Heq. now subst x.
    - intros Hx. exists (role_string (np_role u)). split; [exact Hx|].
      apply String.eqb_refl. }
  destruct attached as [u|].
  - apply Hsome in Hopt. unfold authorize. repeat split.
    + destruct (existsb _ roles) eqn:Hex; simpl in H; [|discriminate].
      injection H as <-. exact Hopt.
    + destruct (existsb _ roles) eqn:Hex; simpl in H; [|discriminate].
      injection H as <-. now apply (Hin "").
    + intros [Hauth Hrole]. rewrite Hopt in Hauth. injection Hauth as <-.
      now rewrite (proj2 (Hin "" u) Hrole).
    + intros (r & Hr). congruence.
    + intros user Hauth Hnot. rewrite Hopt in Hauth. injection Hauth as <-.
      destruct (existsb _ roles) eqn:Hex; [|reflexivity].
      now apply (Hin "") in Hex.
    + intros -> user. simpl. discriminate.
  - apply Hnone in Hopt as (r & Hr). unfold authorize. repeat split.
    + discriminate.
    + discriminate.
    + intros [Hauth _]. congruence.
    + intros user Hauth. congruence.
    + intros _ user. discriminate.
Qed.

End OtherMiddlewares.

Section EmailVerificationGate.

Import Middleware AuthController.

Variable sha256 : string -> string.
Variable decode : string -> option Jwt.Token.

(** [requireEmailVerification] turns away, with 403, an authenticated user
    whose email is not verified, and once [verifyEmail] has accepted that
    user's token the same bearer token gets through it. *)
Theorem verifyEmail_opens_requireEmailVerification (e : Jwt.Env)
    (st : Store.t) (now later : Z) (t tok : string) (payload : Jwt.Claims)
    (u : IUser) :
  t <> "" -> tok <> "" ->
  Store.findOne (liveTokenQuery EmailVerification (sha256 t) now) st = Some u ->
  Store.findById (Some (_id u)) st = Some u ->
  isActive u = true ->
  isEmailVerified u = false ->
  Jwt.verifyAccessToken decode e later tok = inl payload ->
  Jwt.userId payload = Some (_id u) ->
  let authorization := Some ("Bearer " +:+ tok) in
  let st' := (verifyEmail sha256 st now (QString t)).1 in
  (exists before,
      authenticate decode e st later authorization = Next before
      /\ requireEmailVerification before
         = Respond (failure 403
                      "Please verify your email address to access this resource."))
  /\ (exists after,
        authenticate decode e st' later authorization = Next after
        /\ np_id after = _id u
        /\ requireEmailVerification after = Next after).
Proof.
  intros Ht Htok Hfind Hbyid Hactive Hunverified Hverify Huid authorization st'.
  assert (Hauth : forall s d,
             Store.findById (Some (_id u)) s = Some d -> isActive d = true ->
             authenticate decode e s later authorization
             = Next (select_minus_password d)).
  { intros s d Hd Hact. unfold authenticate, authorization.
    rewrite extract_bearer, (proj2 (falsy_Some tok) Htok). simpl default.
    rewrite Hverify, Huid, Hd. simpl. now rewrite Hact. }
  split.
  - exists (select_minus_password u). split; [now apply Hauth|].
    unfold requireEmailVerification. simpl. now rewrite Hunverified.
  - set (u' := set_emailVerification None None (set_isEmailVerified true u)).
    assert (Hst : st' = Store.save u' st).
    { unfold st', verifyEmail. rewrite (proj2 (falsy_Some t) Ht).
      now rewrite Hfind. }
    exists (select_minus_password u'). rewrite Hst. repeat split.
    apply Hauth; [|exact Hactive].
    apply (findById_save u u'); [|reflexivity].
    now apply List.find_some in Hfind.
Qed.

End EmailVerificationGate.

(** Bob, whose email is not verified, is turned away until he presents
    ["v-token-1"]. *)
Lemma verifyEmail_opens_requireEmailVerification_witness :
  exists user,
    Middleware.authenticate Demo.decode Sample.env
      (AuthController.verifyEmail Sample.sha256 Sample.users_pending 1000
         (AuthController.QString "v-token-1")).1
      2000 (Some "Bearer bob.access") = Next user
    /\ np_id user = "u2"
    /\ Middleware.requireEmailVerification user = Next user.
Proof.
  exact (proj2 (verifyEmail_opens_requireEmailVerification Sample.sha256
                  Demo.decode Sample.env Sample.users_pending 1000 2000
                  "v-token-1" "bob.access" _ Sample.bob_pending
                  ltac:(discriminate) ltac:(discriminate) eq_refl eq_refl
                  eq_refl eq_refl eq_refl eq_refl)).
Defined.

(** ** More on the rate limiter *)

Section LimiterWindows.

Import Middleware.

Variables maxRequests windowMs : Z.

Local Abbreviation limiter := (createRateLimiter maxRequests windowMs).

(** The 429 a request at time [t] gets in a window that ends at [reset]. *)
Local Abbreviation rejection reset :=
  (fun t : Z => @Respond unit (tooManyRequests (Js.ceil_div (reset - t) 1000))).

Lemma serve_cons (clients : gmap string Client) (ip : option string)
    (now : Z) (rest : list (option string * Z)) :
  serve limiter clients ((ip, now) :: rest)
  = ((serve limiter (limiter clients ip now).1 rest).1,
     (limiter clients ip now).2
     :: (serve limiter (limiter clients ip now).1 rest).2).
Proof.
  simpl. destruct (limiter clients ip now) as [clients' o]. simpl.
  now destruct (serve limiter clients' rest).
Qed.

Lemma serve_live_window (ip : option string) (reset : Z) (ts : list Z) :
  forall (clients : gmap string Client) (c : Z),
    clients !! Js.or_else ip "unknown"
    = Some {| count := c; resetTime := reset |} ->
    List.Forall (fun t => t <= reset) ts ->
    serve limiter clients (List.map (pair ip) ts)
    = (<[Js.or_else ip "unknown" :=
           {| count := Z.max c (Z.min (c + Z.of_nat (List.length ts))
                                  maxRequests);
              resetTime := reset |}]> clients,
       (List.repeat (Next tt)
          (Z.to_nat (Z.min (Z.of_nat (List.length ts)) (maxRequests - c)))
        ++ List.map (rejection reset)
             (List.skipn (Z.to_nat (maxRequests - c)) ts))%list).
Proof.
  induction ts as [|t ts IH]; intros clients c Hc Hts.
  - cbn [List.map List.length serve]. rewrite List.skipn_nil.
    replace (Z.max c (Z.min (c + Z.of_nat 0) maxRequests)) with c by lia.
    replace (Z.to_nat (Z.min (Z.of_nat 0) (maxRequests - c))) with 0%nat
      by lia.
    now rewrite insert_id by exact Hc.
  - apply List.Forall_cons_iff in Hts as [Ht Hts].
    change (List.map (pair ip) (t :: ts))
      with ((ip, t) :: List.map (pair ip) ts).
    rewrite serve_cons.
    destruct (Z.lt_ge_cases c maxRequests) as [Hlt | Hge].
    + rewrite (limiter_counts maxRequests windowMs clients ip t _ Hc Ht Hlt).
      cbn [fst snd count resetTime].
      rewrite (IH _ (c + 1)) by (try apply lookup_insert_eq; assumption).
      cbn [fst snd]. rewrite insert_insert_eq. f_equal.
      * do 2 f_equal. simpl List.length. lia.
      * replace (Z.to_nat (Z.min (Z.of_nat (List.length (t :: ts)))
                             (maxRequests - c)))
          with (S (Z.to_nat (Z.min (Z.of_nat (List.length ts))
                               (maxRequests - (c + 1)))))
          by (simpl List.length; lia).
        replace (Z.to_nat (maxRequests - c))
          with (S (Z.to_nat (maxRequests - (c + 1)))) by lia.
        reflexivity.
    + rewrite (limiter_rejects maxRequests windowMs clients ip t _ Hc Ht Hge).
      cbn [fst snd count resetTime].
      rewrite (IH _ c Hc Hts). cbn [fst snd]. f_equal.
      * do 2 f_equal. simpl List.length. lia.
      * replace (Z.to_nat (Z.min (Z.of_nat (List.length (t :: ts)))
                             (maxRequests - c))) with 0%nat by lia.
        replace (Z.to_nat (Z.min (Z.of_nat (List.length ts))
                             (maxRequests - c))) with 0%nat by lia.
        replace (Z.to_nat (maxRequests - c)) with 0%nat by lia.
        reflexivity.
Qed.

Lemma serve_opened_window_state (clients : gmap string Client)
    (ip : option string) (t0 : Z) (ts : list Z) :
  (clients !! Js.or_else ip "unknown" = None
   \/ exists c, clients !! Js.or_else ip "unknown" = Some c
                /\ resetTime c < t0) ->
  List.Forall (fun t => t <= t0 + windowMs) ts ->
  (serve limiter clients (List.map (pair ip) (t0 :: ts))).1
  = <[Js.or_else ip "unknown" :=
        {| count := Z.max 1 (Z.min (1 + Z.of_nat (List.length ts))
                               maxRequests);
           resetTime := t0 + windowMs |}]> clients.
Proof.
  intros Hopen Hts.
  change (List.map (pair ip) (t0 :: ts))
    with ((ip, t0) :: List.map (pair ip) ts).
  rewrite serve_cons. cbn [fst].
  assert (Hfirst : (limiter clients ip t0).1
                   = <[Js.or_else ip "unknown" :=
                         {| count := 1; resetTime := t0 + windowMs |}]>
                       clients).
  { destruct Hopen as [Hnone | (c & Hc & Hlt)].
    - now rewrite limiter_first.
    - now rewrite (limiter_elapsed _ _ _ _ _ c). }
  rewrite Hfirst.
  rewrite (serve_live_window ip (t0 + windowMs) ts _ 1)
    by (try apply lookup_insert_eq; assumption).
  cbn [fst]. now rewrite insert_insert_eq.
Qed.

(** One client, one window, for an integer limit and for times that, with
    the end of the window, stay within [Js.MAX_SAFE_INTEGER], where the
    sums, differences and comparisons of the program are exact and the
    quotient by 1000 is rounded by less than the 1/1000 that separates it
    from the next integer: after the request that opens the window at
    [t0], of the requests that follow up to the reset time the first
    [maxRequests - 1] pass and every later one is answered 429 with the
    time left, in that order; the window keeps its reset time and counts
    the requests that passed. Rejected requests are not counted and do not
    move the window. A limit of 0 or less still admits the request that
    opens the window. *)
Theorem window_admits_up_to_the_limit (clients : gmap string Client)
    (ip : option string) (t0 : Z) (ts : list Z) :
  let id := Js.or_else ip "unknown" in
  let reset := t0 + windowMs in
  - Js.MAX_SAFE_INTEGER <= maxRequests <= Js.MAX_SAFE_INTEGER ->
  0 <= windowMs -> 0 <= t0 -> reset <= Js.MAX_SAFE_INTEGER ->
  (clients !! id = None
   \/ exists c, clients !! id = Some c /\ resetTime c < t0) ->
  List.Forall (fun t => 0 <= t <= reset) ts ->
  serve limiter clients (List.map (pair ip) (t0 :: ts))
  = (<[id := {| count := Z.max 1 (Z.min (1 + Z.of_nat (List.length ts))
                                    maxRequests);
                resetTime := reset |}]> clients,
     (Next tt
      :: List.repeat (Next tt)
           (Z.to_nat (Z.min (Z.of_nat (List.length ts)) (maxRequests - 1)))
      ++ List.map (rejection reset)
           (List.skipn (Z.to_nat (maxRequests - 1)) ts))%list).
Proof.
  intros id reset _ _ _ _ Hopen Hts0.
  assert (Hts : List.Forall (fun t => t <= reset) ts).
  { eapply List.Forall_impl; [|exact Hts0]. intros t Ht. simpl in Ht. lia. }
  change (List.map (pair ip) (t0 :: ts))
    with ((ip, t0) :: List.map (pair ip) ts).
  rewrite serve_cons.
  assert (Hfirst : limiter clients ip t0
                   = (<[id := {| count := 1; resetTime := reset |}]> clients,
                      Next tt)).
  { destruct Hopen as [Hnone | (c & Hc & Hlt)].
    - now apply limiter_first.
    - now apply limiter_elapsed with c. }
  rewrite Hfirst. cbn [fst snd].
  rewrite (serve_live_window ip reset ts _ 1)
    by (try apply lookup_insert_eq; assumption).
  cbn [fst snd]. now rewrite insert_insert_eq.
Qed.

End LimiterWindows.

(** A limiter of 3 requests per second, a new client: the requests at
    0, 10 and 20 pass, those at 30 and 1000 are told to retry in 1 and 0
    seconds. *)
Lemma window_admits_up_to_the_limit_witness :
  (Middleware.serve (Middleware.createRateLimiter 3 1000) Middleware.noClients
     (List.map (pair (Some "10.0.0.1")) [0; 10; 20; 30; 1000])).2
  = [Next tt; Next tt; Next tt;
     Respond (Middleware.tooManyRequests 1);
     Respond (Middleware.tooManyRequests 0)].
Proof.
  rewrite (window_admits_up_to_the_limit 3 1000 Middleware.noClients
             (Some "10.0.0.1") 0 [10; 20; 30; 1000]
             ltac:(vm_compute; split; discriminate)
             ltac:(vm_compute; discriminate) ltac:(vm_compute; discriminate)
             ltac:(vm_compute; discriminate) (or_introl eq_refl)).
  - reflexivity.
  - repeat constructor; vm_compute; discriminate.
Defined.

Section LimiterInvariants.

Import Middleware.

Variables maxRequests windowMs : Z.

Local Abbreviation limiter := (createRateLimiter maxRequests windowMs).

Lemma limiter_step_cases (clients : gmap string Client) (ip : option string)
    (now : Z) :
  let id := Js.or_else ip "unknown" in
  (exists c, limiter clients ip now = (<[id := c]> clients, Next tt)
             /\ resetTime c = now + windowMs /\ count c = 1)
  \/ (exists c0, clients !! id = Some c0 /\ now <= resetTime c0
                 /\ count c0 < maxRequests
                 /\ limiter clients ip now
                    = (<[id := {| count := count c0 + 1;
                                  resetTime := resetTime c0 |}]> clients,
                       Next tt))
  \/ (exists c0, clients !! id = Some c0 /\ now <= resetTime c0
                 /\ maxRequests <= count c0
                 /\ limiter clients ip now
                    = (clients,
                       Respond (tooManyRequests
                                  (Js.ceil_div (resetTime c0 - now) 1000)))).
Proof.
  intros id. unfold createRateLimiter. fold id.
  destruct (clients !! id) as [c0|] eqn:Hc; [|left; eauto].
  destruct (Z.ltb_spec (resetTime c0) now); [left; eauto|].
  destruct (Z.leb_spec maxRequests (count c0)).
  - right; right. exists c0. auto.
  - right; left. exists c0. auto.
Qed.


Lemma ceil_div_monotone (x y : Z) :
  x <= y -> Js.ceil_div x 1000 <= Js.ceil_div y 1000.
Proof.
  intros Hxy. unfold Js.ceil_div.
  pose proof (Z.div_le_mono (- y) (- x) 1000 ltac:(lia) ltac:(lia)). lia.
Qed.

Lemma serve_retryAfter_bounded (requests : list (option string * Z)) :
  forall (clients : gmap string Client) (t : Z),
    map_Forall (fun _ c => resetTime c <= t + windowMs) clients ->
    List.Forall (fun r => t <= r.2) requests ->
    StronglySorted Z.le (List.map snd requests) ->
    List.Forall
      (fun o => o = Next tt
                \/ exists n, o = Respond (tooManyRequests n)
                             /\ 0 <= n <= Js.ceil_div windowMs 1000)
      (serve limiter clients requests).2.
Proof.
  induction requests as [|[ip now] rest IH]; intros clients t Hinv Hlow Hsorted.
  - constructor.
  - rewrite serve_cons. cbn [snd].
    apply List.Forall_cons_iff in Hlow as [Hnow _]. simpl in Hnow.
    simpl in Hsorted. apply StronglySorted_inv in Hsorted as [Hsorted Hrest].
    assert (Hrest' : List.Forall (fun r => now <= r.2) rest).
    { apply List.Forall_forall. intros r Hr.
      rewrite List.Forall_forall in Hrest. apply Hrest.
      now apply List.in_map. }
    destruct (limiter_step_cases clients ip now)
      as [(c & -> & Hr & _) | [(c0 & Hc0 & _ & _ & ->) | (c0 & Hc0 & Hle & _ & ->)]];
      cbn [fst snd]; constructor.
    + now left.
    + apply (IH _ now); try assumption.
      apply map_Forall_insert_2; [lia|].
      intros i x Hx. specialize (Hinv i x Hx). simpl in Hinv |- *. lia.
    + now left.
    + apply (IH _ now); try assumption.
      apply map_Forall_insert_2.
      * specialize (Hinv _ _ Hc0). simpl in Hinv |- *. lia.
      * intros i x Hx. specialize (Hinv i x Hx). simpl in Hinv |- *. lia.
    + right. eexists. split; [reflexivity|].
      specialize (Hinv _ _ Hc0). simpl in Hinv. split.
      * apply ceil_div_nonneg. lia.
      * apply ceil_div_monotone. lia.
    + apply (IH _ now); try assumption.
      intros i x Hx. specialize (Hinv i x Hx). simpl in Hinv |- *. lia.
Qed.

(** A limiter with an integer limit that starts empty and is called at
    times that never go back and that, with the window added, stay within
    [Js.MAX_SAFE_INTEGER] (where the arithmetic of the program is exact)
    answers each request with [next()] or with a 429 whose [retryAfter]
    lies between 0 and the length of the window in seconds, rounded up. *)
Theorem limiter_retryAfter_within_window
    (requests : list (option string * Z)) :
  - Js.MAX_SAFE_INTEGER <= maxRequests <= Js.MAX_SAFE_INTEGER ->
  0 <= windowMs ->
  List.Forall (fun r => 0 <= r.2 /\ r.2 + windowMs <= Js.MAX_SAFE_INTEGER)
    requests ->
  StronglySorted Z.le (List.map snd requests) ->
  List.Forall
    (fun o => o = Next tt
              \/ exists n, o = Respond (tooManyRequests n)
                           /\ 0 <= n <= Js.ceil_div windowMs 1000)
    (serve limiter noClients requests).2.
Proof.
  intros _ _ _ Hsorted. destruct requests as [|[ip now] rest]; [constructor|].
  apply (serve_retryAfter_bounded _ noClients now).
  - intros i x Hx. unfold noClients in Hx. now rewrite lookup_empty in Hx.
  - constructor; [simpl; lia|].
    simpl in Hsorted. apply StronglySorted_inv in Hsorted as [_ Hrest].
    apply List.Forall_forall. intros r Hr.
    rewrite List.Forall_forall in Hrest. apply Hrest. now apply List.in_map.
  - exact Hsorted.
Qed.

Lemma limiter_local (c1 c2 : gmap string Client) (ip : option string)
    (now : Z) :
  c1 !! Js.or_else ip "unknown" = c2 !! Js.or_else ip "unknown" ->
  (limiter c1 ip now).2 = (limiter c2 ip now).2
  /\ (limiter c1 ip now).1 !! Js.or_else ip "unknown"
     = (limiter c2 ip now).1 !! Js.or_else ip "unknown".
Proof.
  intros Heq. unfold createRateLimiter. rewrite <- Heq.
  destruct (c1 !! Js.or_else ip "unknown") as [c|] eqn:Hc; cbn [fst snd].
  - destruct (Z.ltb (resetTime c) now); cbn [fst snd].
    + now rewrite !lookup_insert_eq.
    + destruct (Z.leb maxRequests (count c)); cbn [fst snd].
      * split; [reflexivity | congruence].
      * now rewrite !lookup_insert_eq.
  - now rewrite !lookup_insert_eq.
Qed.

(** Clients do not affect one another: in any sequence of requests, the
    answers a client gets and the window kept for it are those it would
    get if its requests were the only ones. *)
Theorem clients_are_limited_independently (id : string)
    (requests : list (option string * Z)) (clients : gmap string Client) :
  let mine := fun r : option string * Z =>
                bool_decide (Js.or_else r.1 "unknown" = id) in
  (serve limiter clients (List.filter mine requests)).2
  = List.map snd
      (List.filter (fun ro => mine ro.1)
         (List.combine requests (serve limiter clients requests).2))
  /\ (serve limiter clients (List.filter mine requests)).1 !! id
     = (serve limiter clients requests).1 !! id.
Proof.
  enough (Hgen : forall c1 c2 : gmap string Client,
             c1 !! id = c2 !! id ->
             let mine := fun r : option string * Z =>
                           bool_decide (Js.or_else r.1 "unknown" = id) in
             (serve limiter c1 (List.filter mine requests)).2
             = List.map snd
                 (List.filter (fun ro => mine ro.1)
                    (List.combine requests (serve limiter c2 requests).2))
             /\ (serve limiter c1 (List.filter mine requests)).1 !! id
                = (serve limiter c2 requests).1 !! id)
    by now apply Hgen.
  induction requests as [|[ip now] rest IH]; intros c1 c2 Heq mine.
  - split; [reflexivity | exact Heq].
  - rewrite (serve_cons _ _ c2). cbn [fst snd List.combine List.filter].
    destruct (mine (ip, now)) eqn:Hmine.
    + apply bool_decide_eq_true in Hmine. cbn [fst] in Hmine.
      rewrite serve_cons. cbn [fst snd List.map].
      rewrite <- Hmine in Heq.
      destruct (limiter_local c1 c2 ip now Heq) as [Ho Hm].
      rewrite Hmine in Hm.
      destruct (IH _ _ Hm) as [IH1 IH2].
      split; [rewrite Ho; f_equal; exact IH1 | exact IH2].
    + apply bool_decide_eq_false in Hmine. cbn [fst] in Hmine.
      apply IH. rewrite limiter_other_client by congruence. exact Heq.
Qed.

End LimiterInvariants.


Lemma limiter_retryAfter_within_window_witness :
  List.Forall
    (fun o => o = Next tt
              \/ exists n, o = Respond (Middleware.tooManyRequests n)
                           /\ 0 <= n <= Js.ceil_div 1500 1000)
    (Middleware.serve (Middleware.createRateLimiter 1 1500)
       Middleware.noClients
       [(Some "a", 0); (Some "a", 200); (Some "b", 700); (Some "a", 1500)]).2.
Proof.
  apply (limiter_retryAfter_within_window 1 1500).
  - vm_compute. split; discriminate.
  - vm_compute. discriminate.
  - repeat constructor; vm_compute; discriminate.
  - simpl. repeat constructor; vm_compute; discriminate.
Defined.

(** ** The routes *)

Section Routes.

Import Middleware AuthController AuthRoutes.

Variable sha256 : string -> string.
Variable toLowerCase : string -> string.
Variable comparePassword : string -> string -> bool.
Variable hashPassword : string -> string.
Variable decode : string -> option Jwt.Token.
Variable e : Jwt.Env.

Local Abbreviation handle :=
  (AuthRoutes.handle sha256 toLowerCase comparePassword hashPassword decode e).
Local Abbreviation run :=
  (AuthRoutes.run sha256 toLowerCase comparePassword hashPassword decode e).

Lemma run_cons (srv : Server) (ip : option string) (now : Z) (req : Request)
    (rest : list (option string * Z * Request)) :
  run srv ((ip, now, req) :: rest)
  = ((run (handle srv ip now req).1 rest).1,
     (handle srv ip now req).2 :: (run (handle srv ip now req).1 rest).2).
Proof.
  simpl. destruct (handle srv ip now req) as [srv' r]. simpl.
  now destruct (run srv' rest).
Qed.

Lemma handle_limiters (srv : Server) (ip : option string) (now : Z)
    (req : Request) :
  usesAuthRateLimit req = true ->
  authClients (handle srv ip now req).1
  = (authRateLimit (authClients srv) ip now).1
  /\ generalClients (handle srv ip now req).1 = generalClients srv.
Proof.
  intros Huses. unfold AuthRoutes.handle, limited.
  destruct req; try discriminate;
    destruct (authRateLimit (authClients srv) ip now) as [clients' [r|[]]];
    cbn [fst]; try (now split);
    match goal with
    | |- context [controllerOf ?a ?b ?c ?d ?f ?g ?n ?r ?s] =>
        destruct (controllerOf a b c d f g n r s)
    end; now split.
Qed.

Lemma run_limiters (requests : list (option string * Z * Request)) :
  forall srv : Server,
    List.Forall (fun r => usesAuthRateLimit r.2 = true) requests ->
    authClients (run srv requests).1
    = (serve authRateLimit (authClients srv) (List.map fst requests)).1
    /\ generalClients (run srv requests).1 = generalClients srv.
Proof.
  induction requests as [|[[ip now] req] rest IH]; intros srv Hall.
  - now split.
  - apply List.Forall_cons_iff in Hall as [Hreq Hrest]. simpl in Hreq.
    rewrite run_cons. cbn [fst List.map].
    rewrite (serve_cons 5 (15 * 60 * 1000) (authClients srv) ip now).
    cbn [fst].
    destruct (handle_limiters srv ip now req Hreq) as [Ha Hg].
    destruct (IH (handle srv ip now req).1 Hrest) as [IHa IHg].
    split; [|congruence].
    rewrite IHa, Ha. reflexivity.
Qed.

(** The credential routes ([POST /login], [/resend-verification],
    [/forgot-password], [/reset-password]) are registered with one and the
    same limiter: once a client has made five requests to any of them
    within the window, a sixth to any of them is answered 429 before its
    controller runs, and leaves the server as it was. [GET /verify-email]
    has a limiter of its own and [GET /profile] has none, so neither is
    affected. *)
Theorem credential_routes_share_one_budget (srv : Server)
    (ip : option string) (t0 t1 t2 t3 t4 t5 : Z)
    (r0 r1 r2 r3 r4 r5 : Request) :
  let id := Js.or_else ip "unknown" in
  let reset := t0 + 900000 in
  List.Forall (fun r => usesAuthRateLimit r = true) [r0; r1; r2; r3; r4; r5] ->
  (authClients srv !! id = None
   \/ exists c, authClients srv !! id = Some c /\ resetTime c < t0) ->
  t1 <= reset -> t2 <= reset -> t3 <= reset -> t4 <= reset -> t5 <= reset ->
  let srv5 := (run srv [(ip, t0, r0); (ip, t1, r1); (ip, t2, r2);
                        (ip, t3, r3); (ip, t4, r4)]).1 in
  handle srv5 ip t5 r5
  = (srv5, tooManyRequests (Js.ceil_div (reset - t5) 1000))
  /\ (forall q,
        generalClients srv !! id = None ->
        (handle srv5 ip t5 (GetVerifyEmail q)).2
        = (verifyEmail sha256 (users srv5) t5 q).2)
  /\ (forall authorization,
        handle srv5 ip t5 (GetProfile authorization)
        = (srv5, profileRoute decode e (users srv5) t5 authorization)).
Proof.
  intros id reset Hall Hopen H1 H2 H3 H4 H5 srv5.
  assert (Hfive : List.Forall (fun r : option string * Z * Request =>
                                 usesAuthRateLimit r.2 = true)
                    [(ip, t0, r0); (ip, t1, r1); (ip, t2, r2);
                     (ip, t3, r3); (ip, t4, r4)]).
  { rewrite !List.Forall_cons_iff in Hall.
    repeat (constructor; [simpl; tauto|]). constructor. }
  destruct (run_limiters _ srv Hfive) as [Hauth Hgeneral].
  fold srv5 in Hauth, Hgeneral.
  change (List.map fst [(ip, t0, r0); (ip, t1, r1); (ip, t2, r2);
                        (ip, t3, r3); (ip, t4, r4)])
    with (List.map (pair ip) (t0 :: [t1; t2; t3; t4])) in Hauth.
  rewrite authRateLimit_eq in Hauth.
  rewrite (serve_opened_window_state 5 900000 (authClients srv) ip t0
             [t1; t2; t3; t4] Hopen) in Hauth
    by (repeat constructor; assumption).
  fold id reset in Hauth.
  assert (Hfull : authClients srv5 !! id
                  = Some {| count := 5; resetTime := reset |}).
  { rewrite Hauth. now rewrite lookup_insert_eq. }
  assert (Hsixth : authRateLimit (authClients srv5) ip t5
                   = (authClients srv5,
                      Respond (tooManyRequests
                                 (Js.ceil_div (reset - t5) 1000)))).
  { rewrite authRateLimit_eq.
    now rewrite (limiter_rejects 5 900000 _ ip t5 _ Hfull) by (simpl; lia). }
  clearbody srv5. destruct srv5 as [ac gc us]. cbn [authClients] in *.
  split; [|split].
  - rewrite !List.Forall_cons_iff in Hall.
    destruct Hall as (_ & _ & _ & _ & _ & H5' & _).
    unfold AuthRoutes.handle, limited. cbn [authClients generalClients users].
    destruct r5; try discriminate; now rewrite Hsixth.
  - intros q Hfresh. unfold AuthRoutes.handle, limited.
    cbn [authClients generalClients users] in *. subst gc.
    unfold generalRateLimit.
    rewrite (limiter_first 10 (60 * 1000) _ ip t5 Hfresh).
    cbn [controllerOf]. now destruct (verifyEmail sha256 us t5 q).
  - intros authorization. reflexivity.
Qed.

End Routes.

(** Five wrong logins for Alice from one address use up the budget: the
    request for a password reset that follows is answered 429. *)
Lemma credential_routes_share_one_budget_witness :
  let wrong := AuthRoutes.PostLogin (Some "alice@x.com") (Some "guess") in
  let handle := AuthRoutes.handle Sample.sha256 Sample.toLowerCase
                  Sample.comparePassword Sample.hashPassword Sample.decode
                  Sample.env in
  let srv5 := (AuthRoutes.run Sample.sha256 Sample.toLowerCase
                 Sample.comparePassword Sample.hashPassword Sample.decode
                 Sample.env (Demo.server Sample.users)
                 [(Some "10.0.0.1", 0, wrong); (Some "10.0.0.1", 1, wrong);
                  (Some "10.0.0.1", 2, wrong); (Some "10.0.0.1", 3, wrong);
                  (Some "10.0.0.1", 4, wrong)]).1 in
  handle srv5 (Some "10.0.0.1") 60000
    (AuthRoutes.PostForgotPassword (Some "alice@x.com") "r-token-3" true "e-3")
  = (srv5, Middleware.tooManyRequests 840).
Proof.
  intros wrong handle srv5.
  refine (proj1 (credential_routes_share_one_budget Sample.sha256
                   Sample.toLowerCase Sample.comparePassword
                   Sample.hashPassword Sample.decode Sample.env
                   (Demo.server Sample.users) (Some "10.0.0.1")
                   0 1 2 3 4 60000 wrong wrong wrong wrong wrong
                   (AuthRoutes.PostForgotPassword (Some "alice@x.com")
                      "r-token-3" true "e-3") _ (or_introl eq_refl)
                   _ _ _ _ _)); try (vm_compute; discriminate).
  repeat constructor.
Defined.

(** ** Keys and sessions *)

Lemma or_else_nonempty (o : option string) (d : string) :
  d <> "" -> Js.or_else o d <> "".
Proof.
  intros Hd. unfold Js.or_else, Js.falsy. destruct o as [s|]; [|exact Hd].
  destruct (bool_decide_reflect (s = "")); [exact Hd | assumption].
Qed.

Lemma or_else_falsy (o : option string) (d : string) :
  Js.falsy o = true -> Js.or_else o d = d.
Proof. intros H. unfold Js.or_else. now rewrite H. Qed.

(** Neither signing key is ever the empty string: a variable that is unset
    or empty gives way to the built-in default, any other value is taken as
    it is; and a deployment that sets neither variable has two different
    keys. *)
Theorem signing_keys_fall_back_to_defaults (e : Jwt.Env) :
  Jwt.JWT_SECRET e <> ""
  /\ Jwt.JWT_REFRESH_SECRET e <> ""
  /\ (forall k, k <> "" -> Jwt.env_JWT_SECRET e = Some k -> Jwt.JWT_SECRET e = k)
  /\ (forall k, k <> "" -> Jwt.env_JWT_REFRESH_SECRET e = Some k ->
                Jwt.JWT_REFRESH_SECRET e = k)
  /\ (Js.falsy (Jwt.env_JWT_SECRET e) = true ->
      Js.falsy (Jwt.env_JWT_REFRESH_SECRET e) = true ->
      Jwt.JWT_SECRET e <> Jwt.JWT_REFRESH_SECRET e).
Proof.
  unfold Jwt.JWT_SECRET, Jwt.JWT_REFRESH_SECRET. repeat split.
  - now apply or_else_nonempty.
  - now apply or_else_nonempty.
  - intros k Hk ->. unfold Js.or_else.
    now rewrite (proj2 (falsy_Some k) Hk).
  - intros k Hk ->. unfold Js.or_else.
    now rewrite (proj2 (falsy_Some k) Hk).
  - intros H1 H2. rewrite (or_else_falsy _ _ H1), (or_else_falsy _ _ H2).
    discriminate.
Qed.

Section Sessions.

Import Middleware AuthController.

Variable toLowerCase : string -> string.
Variable comparePassword : string -> string -> bool.
Variable decode : string -> option Jwt.Token.

Lemma verifyAccessToken_generated (e : Jwt.Env) (issued later : Z)
    (user : IUser) (tok : string) :
  decode tok = Some (Jwt.generateAccessToken e issued user) ->
  Jwt.clockTimestamp later < Jwt.clockTimestamp issued + Jwt.seven_days ->
  Jwt.verifyAccessToken decode e later tok
  = inl (Jwt.claims (Jwt.generateAccessToken e issued user)).
Proof.
  intros Hdec Hlive. unfold Jwt.verifyAccessToken, Jwt.verify. rewrite Hdec.
  unfold Jwt.verify_decoded, Jwt.generateAccessToken, Jwt.sign; simpl.
  rewrite bool_decide_true by reflexivity. simpl.
  destruct (Z.leb_spec (Jwt.clockTimestamp issued + Jwt.seven_days)
              (Jwt.clockTimestamp later)); [lia | reflexivity].
Qed.

(** If the two keys are configured to the same value, the separation of
    the two kinds of token is gone: an access token is accepted by
    [verifyRefreshToken] for as long as it has not expired. *)
Theorem one_key_for_both_lets_access_token_refresh (e : Jwt.Env)
    (issued later : Z) (user : IUser) (tok : string) :
  Jwt.JWT_SECRET e = Jwt.JWT_REFRESH_SECRET e ->
  decode tok = Some (Jwt.generateAccessToken e issued user) ->
  Jwt.clockTimestamp later < Jwt.clockTimestamp issued + Jwt.seven_days ->
  exists payload,
    Jwt.verifyRefreshToken decode e later tok = inl payload
    /\ Jwt.userId payload = Some (_id user).
Proof.
  intros Hkeys Hdec Hlive. eexists. split.
  - unfold Jwt.verifyRefreshToken, Jwt.verify. rewrite Hdec.
    unfold Jwt.verify_decoded, Jwt.generateAccessToken, Jwt.sign; simpl.
    rewrite bool_decide_true by (now rewrite Hkeys). simpl.
    destruct (Z.leb_spec (Jwt.clockTimestamp issued + Jwt.seven_days)
                (Jwt.clockTimestamp later)); [lia | reflexivity].
  - reflexivity.
Qed.

(** From login to an authenticated request: when [POST /login] answers
    200, the access token in its response, sent back by the client in the
    header its request interceptor builds, is accepted by [authenticate]
    on the store login left, for seven days, and the identity attached is
    the one that logged in, with [lastLogin] set to the time of the
    login. *)
Theorem login_token_authenticates (e : Jwt.Env) (st : Store.t)
    (now later : Z) (em pw : option string) (tok : string)
    (uid em' first last : string) (av : option string) (verified : bool)
    (ro : Role) (prefs : Preferences) (ll : option Z) (token : Jwt.Token) :
  data (login toLowerCase comparePassword e st now em pw).2
  = LoginData uid em' first last av verified ro prefs ll token ->
  decode tok = Some token ->
  tok <> "" ->
  Jwt.clockTimestamp later < Jwt.clockTimestamp now + Jwt.seven_days ->
  exists user,
    authenticate decode e
      (login toLowerCase comparePassword e st now em pw).1 later
      (AuthService.authorizationHeader (Some tok)) = Next user
    /\ np_id user = uid
    /\ np_email user = em'
    /\ np_lastLogin user = Some now.
Proof.
  intros Hdata Hdec Htok Hlive. unfold login in *.
  destruct (Js.falsy em || Js.falsy pw); [discriminate|].
  destruct (Store.findOne _ st) as [u|] eqn:Hfind; [|discriminate].
  destruct (isActive u) eqn:Hactive; [|discriminate]. cbn [negb] in *.
  destruct (comparePassword _ _); [|discriminate]. cbn [negb fst snd] in *.
  cbn [data] in Hdata. injection Hdata as <- <- _ _ _ _ _ _ _ <-.
  exists (select_minus_password (set_lastLogin (Some now) u)).
  repeat split.
  unfold authenticate, AuthService.authorizationHeader.
  rewrite (proj2 (falsy_Some tok) Htok).
  change (default "" (Some tok)) with tok.
  rewrite extract_bearer, (proj2 (falsy_Some tok) Htok).
  change (default "" (Some tok)) with tok.
  rewrite (verifyAccessToken_generated e now later _ tok Hdec Hlive).
  cbn [Jwt.userId Jwt.claims Jwt.generateAccessToken Jwt.sign].
  rewrite (findById_save u (set_lastLogin (Some now) u));
    [|now apply List.find_some in Hfind | reflexivity].
  simpl. now rewrite Hactive.
Qed.

End Sessions.

Lemma one_key_for_both_lets_access_token_refresh_witness :
  exists payload,
    Jwt.verifyRefreshToken Demo.one_key_decode Demo.one_key_env 1000
      "alice.access" = inl payload
    /\ Jwt.userId payload = Some "u1".
Proof.
  exact (one_key_for_both_lets_access_token_refresh Demo.one_key_decode
           Demo.one_key_env 0 1000 Sample.alice "alice.access"
           eq_refl eq_refl eq_refl).
Defined.

(** Alice logs in at time 0; her token is accepted a second later. *)
Lemma login_token_authenticates_witness :
  exists user,
    Middleware.authenticate Sample.decode Sample.env
      (AuthController.login Sample.toLowerCase Sample.comparePassword
         Sample.env Sample.users 0 (Some "alice@x.com")
         (Some "longenough1")).1
      1000 (AuthService.authorizationHeader (Some "alice.access")) = Next user
    /\ np_id user = "u1"
    /\ np_email user = "alice@x.com"
    /\ np_lastLogin user = Some 0.
Proof.
  refine (login_token_authenticates Sample.toLowerCase Sample.comparePassword
            Sample.decode Sample.env Sample.users 0 1000 (Some "alice@x.com")
            (Some "longenough1") "alice.access" _ _ _ _ _ _ _ _ _ _
            eq_refl _ _ eq_refl).
  - vm_compute. reflexivity.
  - discriminate.
Defined.

(** ** What the controllers write *)

Lemma NoDup_map_injective {A B : Type} (f : A -> B) (l : list A) (x y : A) :
  List.NoDup (List.map f l) -> In x l -> In y l -> f x = f y -> x = y.
Proof.
  induction l as [|a l IH]; intros Hnd Hx Hy Hf; [destruct Hx|].
  simpl in Hnd. apply List.NoDup_cons_iff in Hnd as [Hnotin Hnd].
  destruct Hx as [-> | Hx], Hy as [-> | Hy].
  - reflexivity.
  - destruct Hnotin. rewrite Hf. now apply List.in_map.
  - destruct Hnotin. rewrite <- Hf. now apply List.in_map.
  - now apply IH.
Qed.

Lemma save_frame {B : Type} (erase : IUser -> B) (u u' : IUser)
    (st : Store.t) :
  List.NoDup (List.map _id st) -> In u st ->
  _id u' = _id u -> erase u' = erase u ->
  List.map erase (Store.save u' st) = List.map erase st.
Proof.
  intros Hnd Hin Hid Herase. unfold Store.save. rewrite List.map_map.
  apply List.map_ext_in. intros d Hd.
  destruct (String.eqb_spec (_id d) (_id u')) as [Heq|]; [|reflexivity].
  rewrite Herase. f_equal. symmetry.
  apply (NoDup_map_injective _id st d u Hnd Hd Hin). congruence.
Qed.

Lemma find_save (q : IUser -> bool) (u u' : IUser) (st : Store.t) :
  Store.findOne q st = Some u -> q u' = true -> _id u' = _id u ->
  Store.findOne q (Store.save u' st) = Some u'.
Proof.
  unfold Store.findOne, Store.save. intros Hfind Hq Hid.
  induction st as [|d st IH]; [discriminate|].
  simpl in Hfind |- *.
  destruct (q d) eqn:Hd.
  - injection Hfind as ->. rewrite Hid, String.eqb_refl. now rewrite Hq.
  - destruct (String.eqb (_id d) (_id u')).
    + now rewrite Hq.
    + rewrite Hd. now apply IH.
Qed.

Section Writes.

Import AuthController.

Variable sha256 : string -> string.
Variable toLowerCase : string -> string.
Variable comparePassword : string -> string -> bool.
Variable hashPassword : string -> string.

(** In a collection whose documents have distinct [_id]s, each controller
    writes only its own fields, on every outcome: [login] changes nothing
    but [lastLogin]; [verifyEmail] nothing but the verification flag and
    the verification token and expiry; [resetPassword] nothing but the
    password and the reset token and expiry. No document is added, dropped
    or moved, and the [_id]s stay distinct. *)
Theorem controllers_write_only_their_fields (e : Jwt.Env) (st : Store.t)
    (now : Z) :
  List.NoDup (List.map _id st) ->
  (forall em pw,
      List.map (set_lastLogin None)
        (login toLowerCase comparePassword e st now em pw).1
      = List.map (set_lastLogin None) st)
  /\ (forall q,
        List.map (fun d => set_emailVerification None None
                             (set_isEmailVerified false d))
          (verifyEmail sha256 st now q).1
        = List.map (fun d => set_emailVerification None None
                               (set_isEmailVerified false d)) st)
  /\ (forall token newPassword,
        List.map (fun d => set_passwordReset None None (set_password "" d))
          (resetPassword sha256 hashPassword st now token newPassword).1
        = List.map (fun d => set_passwordReset None None (set_password "" d))
            st)
  /\ (forall em pw q token newPassword,
        List.map _id (login toLowerCase comparePassword e st now em pw).1
        = List.map _id st
        /\ List.map _id (verifyEmail sha256 st now q).1 = List.map _id st
        /\ List.map _id
             (resetPassword sha256 hashPassword st now token newPassword).1
           = List.map _id st).
Proof.
  intros Hnd.
  assert (Hlogin : forall {B} (erase : IUser -> B) em pw,
             (forall d, erase (set_lastLogin (Some now) d) = erase d) ->
             List.map erase (login toLowerCase comparePassword e st now em pw).1
             = List.map erase st).
  { intros B erase em pw Herase. unfold login.
    destruct (Js.falsy em || Js.falsy pw); [reflexivity|].
    destruct (Store.findOne _ st) as [u|] eqn:Hf; [|reflexivity].
    destruct (negb (isActive u)); [reflexivity|].
    destruct (negb (comparePassword _ _)); [reflexivity|]. cbn [fst].
    apply (save_frame erase u); auto. now apply List.find_some in Hf. }
  assert (Hverify : forall {B} (erase : IUser -> B) q,
             (forall d, erase (set_emailVerification None None
                                 (set_isEmailVerified true d)) = erase d) ->
             List.map erase (verifyEmail sha256 st now q).1
             = List.map erase st).
  { intros B erase q Herase. unfold verifyEmail.
    destruct q as [|t|]; try reflexivity.
    destruct (Js.falsy (Some t)); [reflexivity|].
    destruct (Store.findOne _ st) as [u|] eqn:Hf; [|reflexivity]. cbn [fst].
    apply (save_frame erase u); auto. now apply List.find_some in Hf. }
  assert (Hreset : forall {B} (erase : IUser -> B) token newPassword,
             (forall p d, erase (set_passwordReset None None
                                   (set_password p d)) = erase d) ->
             List.map erase
               (resetPassword sha256 hashPassword st now token newPassword).1
             = List.map erase st).
  { intros B erase token newPassword Herase. unfold resetPassword.
    destruct (Js.falsy token || Js.falsy newPassword); [reflexivity|].
    destruct (Nat.ltb _ 8); [reflexivity|].
    destruct (Store.findOne _ st) as [u|] eqn:Hf; [|reflexivity]. cbn [fst].
    apply (save_frame erase u); auto. now apply List.find_some in Hf. }
  split; [|split; [|split]].
  - intros em pw. now apply Hlogin.
  - intros q. now apply Hverify.
  - intros token newPassword. now apply Hreset.
  - intros em pw q token newPassword. repeat split.
    + now apply Hlogin.
    + now apply Hverify.
    + now apply Hreset.
Qed.

(** A request that [login], [verifyEmail] or [resetPassword] does not
    answer with 200 leaves the store exactly as it was. *)
Theorem refused_requests_change_nothing (e : Jwt.Env) (st : Store.t)
    (now : Z) :
  (forall em pw,
      status (login toLowerCase comparePassword e st now em pw).2 <> 200 ->
      (login toLowerCase comparePassword e st now em pw).1 = st)
  /\ (forall q,
        status (verifyEmail sha256 st now q).2 <> 200 ->
        (verifyEmail sha256 st now q).1 = st)
  /\ (forall token newPassword,
        status (resetPassword sha256 hashPassword st now token newPassword).2
        <> 200 ->
        (resetPassword sha256 hashPassword st now token newPassword).1 = st).
Proof.
  split; [|split].
  - intros em pw. unfold login.
    destruct (Js.falsy em || Js.falsy pw); [reflexivity|].
    destruct (Store.findOne _ st) as [u|]; [|reflexivity].
    destruct (negb (isActive u)); [reflexivity|].
    destruct (negb (comparePassword _ _)); [reflexivity|].
    intros H. now destruct H.
  - intros q. unfold verifyEmail.
    destruct q as [|t|]; try reflexivity.
    destruct (Js.falsy (Some t)); [reflexivity|].
    destruct (Store.findOne _ st) as [u|]; [|reflexivity].
    intros H. now destruct H.
  - intros token newPassword. unfold resetPassword.
    destruct (Js.falsy token || Js.falsy newPassword); [reflexivity|].
    destruct (Nat.ltb _ 8); [reflexivity|].
    destruct (Store.findOne _ st) as [u|]; [|reflexivity].
    intros H. now destruct H.
Qed.

(** The mail is sent after the new token has been saved: whether or not
    the transport accepts it, [resendVerification] and [forgotPassword]
    leave the same store behind, so a failed mail, answered 500, has
    replaced the stored token all the same. When the mail is sent,
    the answer of [forgotPassword] to a request with an email is the
    same whatever the store holds. *)
Theorem failed_mail_still_replaces_the_token (st st2 : Store.t)
    (now now2 : Z) (em : option string) (random random2 : string)
    (uuid uuid2 : string) :
  (resendVerification sha256 toLowerCase st now em random false uuid).1
  = (resendVerification sha256 toLowerCase st now em random true uuid2).1
  /\ (forgotPassword sha256 toLowerCase st now em random false uuid).1
     = (forgotPassword sha256 toLowerCase st now em random true uuid2).1
  /\ (forall user,
        Js.falsy em = false ->
        Store.findOne (byEmail toLowerCase (default "" em)) st = Some user ->
        status (forgotPassword sha256 toLowerCase st now em random false
                  uuid).2 = 500)
  /\ (forgotPassword sha256 toLowerCase st now em random true uuid).2
     = (forgotPassword sha256 toLowerCase st2 now2 em random2 true uuid2).2.
Proof.
  unfold resendVerification, forgotPassword. repeat split.
  - destruct (Js.falsy em); [reflexivity|].
    destruct (Store.findOne _ st) as [u|]; [|reflexivity].
    now destruct (isEmailVerified u).
  - destruct (Js.falsy em); [reflexivity|].
    now destruct (Store.findOne _ st) as [u|].
  - intros user -> ->. reflexivity.
  - destruct (Js.falsy em); [reflexivity|].
    now destruct (Store.findOne _ st), (Store.findOne _ st2).
Qed.

(** After a password reset the new password logs in and a password the
    new hash does not match is refused, for an active account that the
    email finds. *)
Theorem reset_password_then_login (e : Jwt.Env) (st : Store.t)
    (now later : Z) (t pw em other : string) (u : IUser) :
  status (resetPassword sha256 hashPassword st now (Some t) (Some pw)).2
  = 200 ->
  Store.findOne (liveTokenQuery PasswordReset (sha256 t) now) st = Some u ->
  em <> "" -> other <> "" ->
  Store.findOne (byEmail toLowerCase em) st = Some u ->
  isActive u = true ->
  comparePassword pw (hashPassword pw) = true ->
  comparePassword other (hashPassword pw) = false ->
  let st' :=
    (resetPassword sha256 hashPassword st now (Some t) (Some pw)).1 in
  status (login toLowerCase comparePassword e st' later (Some em)
            (Some pw)).2 = 200
  /\ login toLowerCase comparePassword e st' later (Some em) (Some other)
     = (st', failure 401 "Invalid email or password.").
Proof.
  intros Hs Hlive Hem Hother Hfind Hactive Hgood Hbad st'.
  set (u' := set_passwordReset None None (set_password (hashPassword pw) u)).
  assert (Hst : st' = Store.save u' st).
  { unfold st', resetPassword in *.
    destruct (Js.falsy (Some t) || Js.falsy (Some pw)); [discriminate|].
    destruct (Nat.ltb _ 8); [discriminate|].
    cbv zeta. change (default "" (Some t)) with t. now rewrite Hlive. }
  assert (Hfind' : Store.findOne (byEmail toLowerCase em) st' = Some u').
  { rewrite Hst. apply (find_save _ u); [exact Hfind | | reflexivity].
    apply List.find_some in Hfind as [_ Hq]. exact Hq. }
  assert (pw <> "") as Hpw.
  { intros ->. unfold resetPassword in Hs. simpl in Hs.
    rewrite orb_true_r in Hs. discriminate. }
  unfold login.
  rewrite (proj2 (falsy_Some em) Hem), (proj2 (falsy_Some pw) Hpw),
    (proj2 (falsy_Some other) Hother).
  cbn [orb]. change (default "" (Some em)) with em.
  change (default "" (Some pw)) with pw.
  change (default "" (Some other)) with other.
  rewrite Hfind'.
  change (isActive u') with (isActive u).
  change (password u') with (hashPassword pw).
  rewrite Hactive, Hgood, Hbad. split; reflexivity.
Qed.

(** Once [verifyEmail] has accepted a user's token, a request to send
    that user another verification mail is refused with 400 and issues
    nothing. *)
Theorem verified_user_gets_no_new_verification_token (st : Store.t)
    (now later : Z) (t em random : string) (sent : bool) (uuid : string)
    (u : IUser) :
  t <> "" -> em <> "" ->
  Store.findOne (liveTokenQuery EmailVerification (sha256 t) now) st = Some u ->
  Store.findOne (byEmail toLowerCase em) st = Some u ->
  let st' := (verifyEmail sha256 st now (QString t)).1 in
  resendVerification sha256 toLowerCase st' later (Some em) random sent uuid
  = (st', failure 400 "Email is already verified.").
Proof.
  intros Ht Hem Hlive Hfind st'.
  set (u' := set_emailVerification None None (set_isEmailVerified true u)).
  assert (Hst : st' = Store.save u' st).
  { unfold st', verifyEmail. rewrite (proj2 (falsy_Some t) Ht).
    now rewrite Hlive. }
  assert (Hfind' : Store.findOne (byEmail toLowerCase em) st' = Some u').
  { rewrite Hst. apply (find_save _ u); [exact Hfind | | reflexivity].
    apply List.find_some in Hfind as [_ Hq]. exact Hq. }
  unfold resendVerification. rewrite (proj2 (falsy_Some em) Hem).
  change (default "" (Some em)) with em. now rewrite Hfind'.
Qed.

End Writes.

Lemma controllers_write_only_their_fields_witness :
  List.map (set_lastLogin None)
    (AuthController.login Sample.toLowerCase Sample.comparePassword
       Sample.env Sample.users_pending 1000 (Some "alice@x.com")
       (Some "longenough1")).1
  = List.map (set_lastLogin None) Sample.users_pending.
Proof.
  refine (proj1 (controllers_write_only_their_fields Sample.sha256
                   Sample.toLowerCase Sample.comparePassword
                   Sample.hashPassword Sample.env Sample.users_pending 1000 _)
            (Some "alice@x.com") (Some "longenough1")).
  apply List.NoDup_cons; [intros [H|[H|[]]]; discriminate H|].
  apply List.NoDup_cons; [intros [H|[]]; discriminate H|].
  apply List.NoDup_cons; [intros []|]. apply List.NoDup_nil.
Defined.

(** Alice resets her password with ["r-token-1"]; the new password logs
    her in and the old one no longer does. *)
Lemma reset_password_then_login_witness :
  let st' := (AuthController.resetPassword Sample.sha256 Sample.hashPassword
                Sample.users_pending 1000 (Some "r-token-1")
                (Some "brandnewpass")).1 in
  status (AuthController.login Sample.toLowerCase Sample.comparePassword
            Sample.env st' 2000 (Some "alice@x.com")
            (Some "brandnewpass")).2 = 200
  /\ AuthController.login Sample.toLowerCase Sample.comparePassword
       Sample.env st' 2000 (Some "alice@x.com") (Some "longenough1")
     = (st', failure 401 "Invalid email or password.").
Proof.
  exact (reset_password_then_login Sample.sha256 Sample.toLowerCase
           Sample.comparePassword Sample.hashPassword Sample.env
           Sample.users_pending 1000 2000 "r-token-1" "brandnewpass"
           "alice@x.com" "longenough1" Sample.alice_resetting
           eq_refl eq_refl ltac:(discriminate) ltac:(discriminate)
           eq_refl eq_refl eq_refl eq_refl).
Defined.

Lemma verified_user_gets_no_new_verification_token_witness :
  let st' := (AuthController.verifyEmail Sample.sha256 Sample.users_pending
                1000 (AuthController.QString "v-token-1")).1 in
  AuthController.resendVerification Sample.sha256 Sample.toLowerCase st' 2000
    (Some "bob@x.com") "v-token-2" true "e-4"
  = (st', failure 400 "Email is already verified.").
Proof.
  exact (verified_user_gets_no_new_verification_token Sample.sha256
           Sample.toLowerCase Sample.users_pending 1000 2000 "v-token-1"
           "bob@x.com" "v-token-2" true "e-4" Sample.bob_pending
           ltac:(discriminate) ltac:(discriminate) eq_refl eq_refl).
Defined.

(** ** The client *)

Section Client.

Variable sha256 : string -> string.
Variable toLowerCase : string -> string.
Variable comparePassword : string -> string -> bool.
Variable hashPassword : string -> string.

(** The client sends the new password of a reset under the key
    [password], the controller reads [newPassword]: whatever token and
    password are sent, [POST /reset-password] from the client is answered
    400 "Token and new password are required." and the store is not
    touched. The body of a sign-in does carry the fields [login] reads. *)
Theorem client_password_reset_is_always_refused (e : Jwt.Env)
    (st : Store.t) (now : Z) (token newPassword em pw : string) :
  AuthService.resetPasswordOfBody sha256 hashPassword st now
    (AuthService.resetPasswordBody token newPassword)
  = (st, failure 400 "Token and new password are required.")
  /\ AuthService.loginOfBody toLowerCase comparePassword e st now
       (AuthService.signInBody em pw)
     = AuthController.login toLowerCase comparePassword e st now
         (Some em) (Some pw).
Proof.
  split.
  - unfold AuthService.resetPasswordOfBody, AuthService.resetPasswordBody.
    rewrite (lookup_insert_ne _ "token" "newPassword") by discriminate.
    rewrite (lookup_insert_ne _ "password" "newPassword") by discriminate.
    rewrite lookup_empty.
    unfold AuthController.resetPassword. cbn [Js.falsy].
    now rewrite orb_true_r.
  - unfold AuthService.loginOfBody, AuthService.signInBody.
    rewrite lookup_insert_eq.
    rewrite (lookup_insert_ne _ "email" "password") by discriminate.
    now rewrite lookup_insert_eq.
Qed.

End Client.

Section Logger.

Import ErrorLogger.

Lemma tl_skipn {A : Type} (k : nat) (l : list A) :
  List.tl (List.skipn k l) = List.skipn (S k) l.
Proof.
  revert l. induction k as [|k IH]; intros [|a l]; try reflexivity.
  exact (IH l).
Qed.

Lemma remember_last_hundred (d : ErrorDetails) (ds : list ErrorDetails) :
  remember d (List.skipn (List.length ds - maxErrors) ds)
  = List.skipn (List.length (ds ++ [d]) - maxErrors) (ds ++ [d]).
Proof.
  unfold remember, maxErrors.
  rewrite !List.length_app, List.length_skipn. simpl List.length.
  destruct (Nat.ltb_spec 100
              (List.length ds - (List.length ds - 100) + 1)) as [Hlt|Hge].
  - assert (100 <= List.length ds)%nat as Hfull by lia.
    destruct (List.skipn (List.length ds - 100) ds) as [|a l] eqn:Hs.
    + apply (f_equal (@List.length _)) in Hs.
      rewrite List.length_skipn in Hs. simpl in Hs. lia.
    + simpl List.tl.
      replace (List.length ds + 1 - 100)%nat
        with (S (List.length ds - 100)) by lia.
      rewrite List.skipn_app.
      replace (S (List.length ds - 100) - List.length ds)%nat
        with 0%nat by lia.
      rewrite <- tl_skipn, Hs. reflexivity.
  - replace (List.length ds - 100)%nat with 0%nat by lia.
    replace (List.length ds + 1 - 100)%nat with 0%nat by lia.
    reflexivity.
Qed.

(** The error list is a bounded buffer: after any number of errors have
    been recorded into an empty list, it holds the last [maxErrors] = 100
    of them, oldest first, and all of them if there were fewer. *)
Theorem errorLogger_keeps_the_last_hundred (ds : list ErrorDetails) :
  List.fold_left (fun errors d => remember d errors) ds []
  = List.skipn (List.length ds - maxErrors) ds
  /\ List.length (List.fold_left (fun errors d => remember d errors) ds [])
     = Nat.min (List.length ds) maxErrors.
Proof.
  assert (H : List.fold_left (fun errors d => remember d errors) ds []
              = List.skipn (List.length ds - maxErrors) ds).
  { induction ds as [|d ds IH] using List.rev_ind; [reflexivity|].
    rewrite List.fold_left_app. simpl List.fold_left.
    rewrite IH. apply remember_last_hundred. }
  split; [exact H|]. rewrite H, List.length_skipn. lia.
Qed.

(** [getRecentErrors(limit)] returns the last [limit] errors for a
    positive [limit] (all of them if there are fewer); for [limit = 0] it
    returns every error, not none; for a negative [limit] it drops the
    oldest [-limit] errors. *)
Theorem getRecentErrors_limits (errors : list ErrorDetails) (limit : Z) :
  (0 < limit ->
   getRecentErrors limit errors
   = List.skipn (List.length errors - Z.to_nat limit) errors
   /\ List.length (getRecentErrors limit errors)
      = Nat.min (Z.to_nat limit) (List.length errors))
  /\ getRecentErrors 0 errors = errors
  /\ (limit < 0 ->
      getRecentErrors limit errors = List.skipn (Z.to_nat (- limit)) errors).
Proof.
  unfold getRecentErrors, slice_from. split; [|split].
  - intros Hpos. destruct (Z.ltb_spec (- limit) 0); [|lia].
    split; [f_equal; lia|]. rewrite List.length_skipn. lia.
  - change (- 0) with 0. destruct (Z.ltb_spec 0 0); [lia|].
    now rewrite Z.min_l by lia.
  - intros Hneg. destruct (Z.ltb_spec (- limit) 0); [lia|].
    destruct (Z.min_spec (- limit) (Z.of_nat (List.length errors)))
      as [[_ ->] | [Hle ->]]; [reflexivity|].
    rewrite Nat2Z.id, List.skipn_all.
    symmetry. apply List.skipn_all2. lia.
Qed.

End Logger.

Lemma getRecentErrors_limits_witness :
  ErrorLogger.getRecentErrors 2 [Demo.entry 1; Demo.entry 2; Demo.entry 3]
  = [Demo.entry 2; Demo.entry 3].
Proof.
  rewrite (proj1 (proj1 (getRecentErrors_limits
                           [Demo.entry 1; Demo.entry 2; Demo.entry 3] 2)
                    ltac:(vm_compute; reflexivity))).
  reflexivity.
Defined.

(** Alice is a plain user: behind [optionalAuth], a route for
    administrators answers her 403. *)
Lemma authorize_after_optionalAuth_witness :
  Middleware.authorize ["admin"] (Some (select_minus_password Sample.alice))
  = Respond (failure 403 "Insufficient permissions to access this resource.").
Proof.
  refine (proj1 (proj2 (proj2
            (authorize_after_optionalAuth Sample.decode ["admin"] Sample.env
               Sample.users 1000 (Some "Bearer alice.access")
               (Some (select_minus_password Sample.alice)) eq_refl)))
            (select_minus_password Sample.alice) eq_refl _).
  intros [H|[]]. discriminate H.
Defined.
